(** * Caravan: rule engine and game state machine

    A shallow embedding of the Caravan card game core (React/JS):
    - [CardUtils]  cards and the deck            (game/cardUtils.js)
    - [Rules]      pile evaluator and validator  (game/rules.js)
    - [Game]       the game state records        (App.jsx, [initialGame])
    - [Invariants] the self-check                (game/invariants.js)
    - [App]        the reducer [placeCard], the end-condition effect,
                   the drop probes and the AI timer callback (App.jsx)

    App.jsx imports game/cardUtils.js and game/rules.js, whose sources are
    not available: [drawOne] and the module [Rules] are modelled from the
    specification, and the definitions of [App] take the imported
    validator, probe and totals as parameters.

    JS numbers are modelled as [Z] (all values stay far below 2^53),
    array positions that index an existing array as [nat], [null] and
    [undefined] as [None]. *)

From stdpp Require Import base numbers option list strings.

Open Scope Z_scope.

(* ===================================================================== *)
(** ** Cards and deck (game/cardUtils.js) *)
(* ===================================================================== *)

Module CardUtils.

Inductive Suit := hearts | diamonds | spades | clubs.

Inductive Color := red | black.

(** The thirteen ranks ['A'], ['2'] .. ['10'], ['J'], ['Q'], ['K']. *)
Inductive Rank :=
| RA | R2 | R3 | R4 | R5 | R6 | R7 | R8 | R9 | R10 | RJ | RQ | RK.

#[global] Instance Rank_eq_dec : EqDecision Rank.
Proof. solve_decision. Defined.

(** A card object [{ id, suit, rank, color, removed }]. *)
Record Card := mkCard {
  id : string;
  suit : Suit;
  rank : Rank;
  color : Color;
  removed : bool
}.

(** [{ ...c, removed: true }] *)
Definition markRemoved (c : Card) : Card :=
  {| id := id c; suit := suit c; rank := rank c; color := color c;
     removed := true |}.

(** Modelled from the spec: [drawOne(deck)] of game/cardUtils.js, whose
    source is not available.  "removes and returns (card-or-none,
    remaining); empty deck yields none and the same empty deck, never an
    error"; the deck is "ordered, draw from front". *)
Definition drawOne (deck : list Card) : option Card * list Card :=
  match deck with
  | [] => (None, [])
  | c :: rest => (Some c, rest)
  end.

(** The two sides, the strings ['player'] and ['ai']. *)
Inductive Side := player | ai.

#[global] Instance Side_eq_dec : EqDecision Side.
Proof. solve_decision. Defined.

(** A pile object [{ cards }]: the raw insertion history. *)
Record Pile := mkPile { cards : list Card }.

End CardUtils.

Export CardUtils.

(* ===================================================================== *)
(** ** Pile evaluator and move validator (game/rules.js) *)
(* ===================================================================== *)

Module Rules.

(** Modelled from the spec: [isFaceCard] of game/rules.js, whose source is
    not available.  "Face card: Jack, Queen, or King". *)
Definition isFaceCard (c : Card) : bool :=
  match rank c with
  | RJ | RQ | RK => true
  | _ => false
  end.

(** Modelled from the spec: [isNumericOrAce] of game/rules.js; the ranks
    "A, 2-10". *)
Definition isNumericOrAce (c : Card) : bool :=
  match rank c with
  | RJ | RQ | RK => false
  | _ => true
  end.

(** Modelled from the spec: [getCardValue] of game/rules.js.  "A=1, 2-10
    literal, J/Q=0"; a King is a "zero-value, effect-only" face card. *)
Definition getCardValue (c : Card) : Z :=
  match rank c with
  | RA => 1 | R2 => 2 | R3 => 3 | R4 => 4 | R5 => 5 | R6 => 6 | R7 => 7
  | R8 => 8 | R9 => 9 | R10 => 10
  | RJ | RQ | RK => 0
  end.

(** Modelled from the spec: liveness, a helper of game/rules.js.  "Live
    card: a card not marked removed". *)
Definition isLive (c : Card) : bool := negb (removed c).

(** *** Scoring: the slot fold *)

(** Running state of the scoring fold: the total of the slots already
    closed, and the open slot (base value and running multiplier). *)
Record Slots := mkSlots {
  closedTotal : Z;
  slotBase : Z;
  slotMultiplier : Z
}.

Definition slotsTotal (s : Slots) : Z :=
  closedTotal s + slotBase s * slotMultiplier s.

(** Modelled from the spec: the scoring pass of [computePileView].  "a fold
    over raw order that tracks a running multiplier per numeric/Ace slot,
    reset whenever a new numeric/Ace card begins a slot"; a removed base
    card opens a slot worth 0; a live King doubles the open slot; Jacks,
    Queens and removed face cards leave the slot alone. *)
Definition scoreStep (s : Slots) (c : Card) : Slots :=
  if isNumericOrAce c then
    {| closedTotal := slotsTotal s;
       slotBase := if isLive c then getCardValue c else 0;
       slotMultiplier := 1 |}
  else if isLive c && bool_decide (rank c = RK) then
    {| closedTotal := closedTotal s;
       slotBase := slotBase s;
       slotMultiplier := slotMultiplier s * 2 |}
  else s.

Definition emptySlots : Slots :=
  {| closedTotal := 0; slotBase := 0; slotMultiplier := 1 |}.

(** Modelled from the spec: the pile total of [computePileView], the value
    the slot fold ends with.  "Pile total = sum over live numeric/Ace cards
    of (base value x product of multipliers from Kings bound to that
    card); removed cards contribute 0". *)
Definition pileTotal (rawCards : list Card) : Z :=
  slotsTotal (foldl scoreStep emptySlots rawCards).

(** *** Direction state *)

Inductive Direction := ascending | descending.

#[global] Instance Direction_eq_dec : EqDecision Direction.
Proof. solve_decision. Defined.

Definition flipDirection (d : Direction) : Direction :=
  match d with
  | ascending => descending
  | descending => ascending
  end.

(** The last live numeric/Ace value seen and the active direction. *)
Record DirectionState := mkDirectionState {
  lastValue : option Z;
  direction : option Direction
}.

(** Modelled from the spec: the direction pass of [computePileView].
    "scan live numeric/Ace cards in raw order; the first two distinct
    consecutive values fix ascending or descending; equal values never
    establish or extend a direction.  A Queen anywhere in the pile flips
    the active direction context for all comparisons from that point
    forward."  Removed cards are skipped; a Queen met before any direction
    is active has nothing to flip. *)
Definition directionStep (st : DirectionState) (c : Card) : DirectionState :=
  if removed c then st
  else if isNumericOrAce c then
    let v := getCardValue c in
    {| lastValue := Some v;
       direction :=
         match direction st, lastValue st with
         | Some d, _ => Some d
         | None, Some l =>
             if bool_decide (l < v) then Some ascending
             else if bool_decide (v < l) then Some descending
             else None
         | None, None => None
         end |}
  else if bool_decide (rank c = RQ) then
    {| lastValue := lastValue st;
       direction := flipDirection <$> direction st |}
  else st.

Definition noDirection : DirectionState :=
  {| lastValue := None; direction := None |}.

(** Modelled from the spec: the direction state of a pile, "a pure fold"
    that rescans the pile history on every read. *)
Definition computeDirectionState (rawCards : list Card) : DirectionState :=
  foldl directionStep noDirection rawCards.

(** Modelled from the spec: [computePileView(rawCards)].  "the visible
    order equals raw order; for each card determines whether it counts for
    scoring (live, non-removed)", together with the direction state and the
    pile total. *)
Record PileView := mkPileView {
  visible : list (Card * bool);
  viewDirection : option Direction;
  viewTotal : Z
}.

Definition computePileView (rawCards : list Card) : PileView :=
  {| visible := (fun c => (c, isLive c)) <$> rawCards;
     viewDirection := direction (computeDirectionState rawCards);
     viewTotal := pileTotal rawCards |}.

(** The totals object [{ perPile, total }] that App.jsx reads. *)
Record Totals := mkTotals {
  perPile : list Z;
  total : Z
}.

(** Modelled from the spec: [computePlayerTotals(piles)] of game/rules.js.
    "per-pile totals (3 values) plus grand total". *)
Definition computePlayerTotals (piles : list Pile) : Totals :=
  let per := (fun p => pileTotal (cards p)) <$> piles in
  {| perPile := per; total := foldr Z.add 0 per |}.

(** *** Move validator *)

(** The result object [{ ok, reason? }] that [placeCard] reads. *)
Record Validation := mkValidation {
  ok : bool;
  reason : option string
}.

Definition accept : Validation := {| ok := true; reason := None |}.
Definition reject : Validation := {| ok := false; reason := None |}.

(** Modelled from the spec: the eligible targets of a King.  "A King's
    target must be a live (non-removed) numeric/Ace card". *)
Definition isKingTarget (c : Card) : bool := isNumericOrAce c && isLive c.

(** Modelled from the spec: [canPlaceCardOnTargetWithReason(card,
    pileRawCards, actorSide, targetSide)] of game/rules.js, "evaluated in
    this order":
    1. opponent pile: "card must be J/Q/K and the pile must be non-empty;
       otherwise rejected";
    2. numeric/Ace: "strictly greater if ascending, strictly less if
       descending, equality always illegal once a direction exists; if
       fewer than two live numeric/Ace cards exist, any value is legal";
    3. King: "pile non-empty; ... if no index is given (probe mode), at
       least one eligible target must exist" (the function takes no index);
    4. Jack: "pile non-empty";
    5. Queen: "legal on any own pile at any time, including empty".
    The spec fixes no reason texts, so [reason] is left undefined. *)
Definition canPlaceCardOnTargetWithReason
    (card : Card) (pileRawCards : list Card) (actorSide targetSide : Side)
    : Validation :=
  if bool_decide (targetSide <> actorSide)
     && (negb (isFaceCard card) || bool_decide (pileRawCards = []))
  then reject
  else if isNumericOrAce card then
    let st := computeDirectionState pileRawCards in
    let v := getCardValue card in
    match direction st, lastValue st with
    | Some ascending, Some l => if bool_decide (l < v) then accept else reject
    | Some descending, Some l => if bool_decide (v < l) then accept else reject
    | _, _ => accept
    end
  else
    match rank card with
    | RK =>
        if bool_decide (pileRawCards = []) then reject
        else if existsb isKingTarget pileRawCards then accept else reject
    | RJ => if bool_decide (pileRawCards = []) then reject else accept
    | _ => accept
    end.

(** Modelled from the spec: [canPlaceCardOnTarget], the boolean probe used
    for hinting and by the AI: the [ok] field of the validator's answer. *)
Definition canPlaceCardOnTarget
    (card : Card) (pileRawCards : list Card) (actorSide targetSide : Side)
    : bool :=
  ok (canPlaceCardOnTargetWithReason card pileRawCards actorSide targetSide).

End Rules.

Export Rules.

(* ===================================================================== *)
(** ** Game state (App.jsx, [initialGame]) *)
(* ===================================================================== *)

Module Game.

(** [{ hand, piles }] *)
Record PlayerState := mkPlayerState {
  hand : list Card;
  piles : list Pile
}.

(** [{ player, ai }], read as [players[side]]. *)
Record Players := mkPlayers {
  ofPlayer : PlayerState;
  ofAi : PlayerState
}.

Definition getSide (ps : Players) (s : Side) : PlayerState :=
  match s with
  | player => ofPlayer ps
  | ai => ofAi ps
  end.

(** [ps[s] = v] on the fresh copy [newPlayers]. *)
Definition setSide (ps : Players) (s : Side) (v : PlayerState) : Players :=
  match s with
  | player => {| ofPlayer := v; ofAi := ofAi ps |}
  | ai => {| ofPlayer := ofPlayer ps; ofAi := v |}
  end.

(** [winner]: ['player'], ['ai'] or ['tie']. *)
Inductive Winner := wins (s : Side) | tie.

(** A move-log entry as [placeCard] builds it.  [runInvariants] also reads
    a property [pileBeforeSize]; [placeCard] never writes it, so it is
    [None] (undefined) on every entry of a real log. *)
Record MoveLogEntry := mkMoveLogEntry {
  actor : Side;
  target : Side;
  cardRank : Rank;
  pileIndex : nat;
  targetVisibleIndex : option Z;
  aiEnabledAtMove : bool;
  prevTurn : Side;
  nextTurn : Side;
  time : Z;
  pileBeforeSize : option Z
}.

Record GameState := mkGameState {
  deck : list Card;
  players : Players;
  turn : Side;
  aiEnabled : bool;
  gameOver : bool;
  winner : option Winner;
  message : option string;
  moveCount : Z;
  moveLog : list MoveLogEntry
}.

(** [{ ...g, message: m }] *)
Definition withMessage (g : GameState) (m : option string) : GameState :=
  {| deck := deck g; players := players g; turn := turn g;
     aiEnabled := aiEnabled g; gameOver := gameOver g; winner := winner g;
     message := m; moveCount := moveCount g; moveLog := moveLog g |}.

(** [{ ...g, turn: t, message: m }] *)
Definition withTurnMessage (g : GameState) (t : Side) (m : option string)
    : GameState :=
  {| deck := deck g; players := players g; turn := t;
     aiEnabled := aiEnabled g; gameOver := gameOver g; winner := winner g;
     message := m; moveCount := moveCount g; moveLog := moveLog g |}.

(** [{ ...g, turn: t }], a state that differs in whose turn it is. *)
Definition withTurn (g : GameState) (t : Side) : GameState :=
  withTurnMessage g t (message g).

(** [{ ...g, gameOver: true, winner: w }] *)
Definition withWinner (g : GameState) (w : Winner) : GameState :=
  {| deck := deck g; players := players g; turn := turn g;
     aiEnabled := aiEnabled g; gameOver := true; winner := Some w;
     message := message g; moveCount := moveCount g; moveLog := moveLog g |}.

End Game.

Export Game.

(* ===================================================================== *)
(** ** Self-check (game/invariants.js) *)
(* ===================================================================== *)

Module Invariants.

(** The entries of [errors].  The source pushes a message string built from
    a template; the constructor keeps which check failed and the values
    interpolated into the message. *)
Inductive InvariantError :=
| TurnAlternation (prevIndex index : Z) (who : Side)
| TurnMismatch (expectedTurn lastActor actualTurn : Side)
| JackOnEmptyPile (index : Z)
| OpponentTarget (index : Z) (r : Rank)
| DeckNegative (len : Z).

(** The numbered check of the source an error comes from. *)
Definition checkOf (e : InvariantError) : nat :=
  match e with
  | TurnAlternation _ _ _ => 1
  | TurnMismatch _ _ _ => 2
  | JackOnEmptyPile _ => 3
  | OpponentTarget _ _ => 4
  | DeckNegative _ => 5
  end.

(** The local variables [errors] and [checked]. *)
Record Progress := mkProgress {
  errors : list InvariantError;
  checked : Z
}.

(** The returned object [{ errors, checked, moveCount }]. *)
Record Report := mkReport {
  reportErrors : list InvariantError;
  reportChecked : Z;
  reportMoveCount : Z
}.

(** [const errors = []; let checked = 0;] *)
Definition blank : Progress := {| errors := []; checked := 0 |}.

Definition push (e : InvariantError) (st : Progress) : Progress :=
  {| errors := errors st ++ [e]; checked := checked st |}.

Definition tick (st : Progress) : Progress :=
  {| errors := errors st; checked := checked st + 1 |}.

(** 1) [for (let i = 1; i < log.length; i++)]: [rest] is the log from
    position [i - 1] on. *)
Fixpoint alternationLoop (i : Z) (rest : list MoveLogEntry) (st : Progress)
    : Progress :=
  match rest with
  | prev :: ((curr :: _) as rest') =>
      let st := tick st in
      if bool_decide (actor prev = actor curr)
      then push (TurnAlternation (i - 1) i (actor prev)) st
      else alternationLoop (i + 1) rest' st
  | _ => st
  end.

(** 2) the turn after the last move. *)
Definition turnCheck (g : GameState) (log : list MoveLogEntry) (st : Progress)
    : Progress :=
  if negb (gameOver g) && bool_decide (0 < Z.of_nat (length log)) then
    match last log with
    | Some lastEntry =>
        let st := tick st in
        let expectedTurn :=
          if bool_decide (actor lastEntry = player) then ai else player in
        if bool_decide (turn g <> expectedTurn)
        then push (TurnMismatch expectedTurn (actor lastEntry) (turn g)) st
        else st
    | None => st
    end
  else st.

(** 3) [for (let i = 0; i < log.length; i++)]: [rest] is the log from
    position [i] on. *)
Fixpoint jackLoop (i : Z) (rest : list MoveLogEntry) (st : Progress)
    : Progress :=
  match rest with
  | m :: rest' =>
      if bool_decide (cardRank m = RJ)
         && bool_decide (pileBeforeSize m = Some 0)
      then push (JackOnEmptyPile i) (tick st)
      else jackLoop (i + 1) rest' st
  | [] => st
  end.

(** [['J', 'Q', 'K'].includes(r)] *)
Definition isFaceRank (r : Rank) : bool :=
  bool_decide (r = RJ) || bool_decide (r = RQ) || bool_decide (r = RK).

(** 4) opponent targeting. *)
Fixpoint opponentLoop (i : Z) (rest : list MoveLogEntry) (st : Progress)
    : Progress :=
  match rest with
  | m :: rest' =>
      let isOpponent := bool_decide (actor m <> target m) in
      if isOpponent then
        let st := tick st in
        if negb (isFaceRank (cardRank m))
        then push (OpponentTarget i (cardRank m)) st
        else opponentLoop (i + 1) rest' st
      else opponentLoop (i + 1) rest' st
  | [] => st
  end.

(** 5) deck length. *)
Definition deckCheck (g : GameState) (st : Progress) : Progress :=
  let st := tick st in
  if bool_decide (Z.of_nat (length (deck g)) < 0)
  then push (DeckNegative (Z.of_nat (length (deck g)))) st
  else st.

Definition runInvariants (game : GameState) : Report :=
  let st := blank in
  let log := moveLog game in
  let st := alternationLoop 1 log st in
  let st := turnCheck game log st in
  let st := jackLoop 0 log st in
  let st := opponentLoop 0 log st in
  let st := deckCheck game st in
  {| reportErrors := errors st;
     reportChecked := checked st;
     reportMoveCount := Z.of_nat (length log) |}.

End Invariants.

(* ===================================================================== *)
(** ** The application core (App.jsx) *)
(* ===================================================================== *)

Module App.

(** [arr[i]] for a JS number [i]: undefined outside [0 .. length - 1]. *)
Definition at_index {A} (arr : list A) (i : Z) : option A :=
  if bool_decide (i < 0) then None else arr !! Z.to_nat i.

(** [arr.splice(start, 0, x)] on a copy: a negative [start] counts from
    the end, and the position is clamped to [0 .. length]. *)
Definition spliceInsert {A} (arr : list A) (start : Z) (x : A) : list A :=
  let len := Z.of_nat (length arr) in
  let k := if bool_decide (start < 0) then Z.max (len + start) 0
           else Z.min start len in
  take (Z.to_nat k) arr ++ x :: drop (Z.to_nat k) arr.

(** [actorSide === 'player' ? 'ai' : 'player'] *)
Definition opponentOf (s : Side) : Side :=
  if bool_decide (s = player) then ai else player.

(** [(t) => t >= 21 && t <= 26] *)
Definition isInRange (t : Z) : bool :=
  bool_decide (t >= 21) && bool_decide (t <= 26).

(** [decideWinnerIfAny], over the memoised totals of both sides. *)
Definition decideWinnerIfAny (playerTotals aiTotals : Totals)
    : option Winner :=
  let playerAllInRange := forallb isInRange (perPile playerTotals) in
  let aiAllInRange := forallb isInRange (perPile aiTotals) in
  if negb playerAllInRange && negb aiAllInRange then None
  else if playerAllInRange && negb aiAllInRange then Some (wins player)
  else if aiAllInRange && negb playerAllInRange then Some (wins ai)
  else if bool_decide (total playerTotals > total aiTotals)
  then Some (wins player)
  else if bool_decide (total aiTotals > total playerTotals)
  then Some (wins ai)
  else Some tie.

(** Lines 328-363 of [placeCard]: the new raw card list of the target
    pile, or the message of the early return. *)
Definition resolveInsertion (card : Card) (pileCards : list Card)
    (targetVisibleIndex : option Z) : string + list Card :=
  let newRaw := pileCards in
  if isNumericOrAce card then inr (newRaw ++ [card])
  else
    match targetVisibleIndex with
    | None =>
        if bool_decide (Z.of_nat (length pileCards) > 0)
        then inl "Choose a specific card to place J/Q/K onto."
        else if bool_decide (rank card = RK)
        then inl "King must be placed on a number or Ace."
        else inr (newRaw ++ [card])
    | Some tvi =>
        let insertAt := tvi + 1 in
        let targetCard := at_index newRaw tvi in
        let valid :=
          match targetCard with
          | Some tc => isNumericOrAce tc && negb (removed tc)
          | None => false
          end in
        if bool_decide (rank card = RK) && negb valid
        then inl "King must be placed on a number or Ace that is not removed."
        else
          let newRaw := spliceInsert newRaw insertAt card in
          if bool_decide (rank card = RJ) then
            match targetCard with
            | Some tc => inr (<[Z.to_nat tvi := markRemoved tc]> newRaw)
            | None => inr newRaw
            end
          else inr newRaw
    end.

(** The drag payload [{ source, owner, cardId }]. *)
Record Payload := mkPayload {
  source : string;
  owner : string;
  payloadCardId : string
}.

(** A candidate of the AI: [{ actor, target, cardId, pileIndex, tvi }]. *)
Record Move := mkMove {
  moveActor : Side;
  moveTarget : Side;
  moveCardId : string;
  movePileIndex : nat;
  tvi : option Z
}.

Section Core.

(** The imports from game/rules.js, which App.jsx only calls. *)
Variable canPlaceCardOnTargetWithReason :
  Card -> list Card -> Side -> Side -> Validation.
Variable canPlaceCardOnTarget : Card -> list Card -> Side -> Side -> bool.
Variable computePlayerTotals : list Pile -> Totals.

(** The end-condition effect: [if (game.gameOver) return; const w =
    decideWinnerIfAny(); if (w) setGame(g => ({ ...g, gameOver: true,
    winner: w }))]. *)
Definition endConditionEffect (g : GameState) : GameState :=
  if gameOver g then g
  else
    match decideWinnerIfAny
            (computePlayerTotals (piles (ofPlayer (players g))))
            (computePlayerTotals (piles (ofAi (players g)))) with
    | Some w => withWinner g w
    | None => g
    end.

(** [placeCard]: the updater passed to [setGame], applied to [g].  [now]
    is the reading of [Date.now()].  [None] is the TypeError raised by
    [targetPile.cards] when [target.piles[pileIndex]] is undefined. *)
Definition placeCard (now : Z) (actorSide targetSide : Side)
    (cardId : string) (pileIndex : nat) (targetVisibleIndex : option Z)
    (g : GameState) : option GameState :=
  if gameOver g then Some g
  else
    let actor := getSide (players g) actorSide in
    let target := getSide (players g) targetSide in
    match list_find (fun c => id c = cardId) (hand actor) with
    | None => Some g
    | Some (handIndex, card) =>
        match piles target !! pileIndex with
        | None => None
        | Some targetPile =>
            let pileCards := cards targetPile in
            let validation :=
              canPlaceCardOnTargetWithReason card pileCards
                actorSide targetSide in
            if negb (ok validation) then
              Some (withMessage g
                      (Some (match reason validation with
                             | Some r =>
                                 if bool_decide (r = "") then "Invalid move."
                                 else r
                             | None => "Invalid move."
                             end)))
            else
              match resolveInsertion card pileCards targetVisibleIndex with
              | inl msg => Some (withMessage g (Some msg))
              | inr newRaw =>
                  let '(drawn, newDeck) := drawOne (deck g) in
                  let newActorHand :=
                    delete handIndex (hand actor) ++ option_list drawn in
                  let newPlayers := players g in
                  let newPlayers :=
                    setSide newPlayers actorSide
                      {| hand := newActorHand;
                         piles := piles (getSide newPlayers actorSide) |} in
                  let newPlayers :=
                    setSide newPlayers targetSide
                      {| hand := hand (getSide newPlayers targetSide);
                         piles :=
                           imap (fun idx p =>
                                   if bool_decide (idx = pileIndex)
                                   then {| cards := newRaw |} else p)
                                (piles (getSide newPlayers targetSide)) |} in
                  let nextTurn := opponentOf actorSide in
                  let moveEntry :=
                    {| actor := actorSide;
                       target := targetSide;
                       cardRank := rank card;
                       pileIndex := pileIndex;
                       targetVisibleIndex := targetVisibleIndex;
                       aiEnabledAtMove := aiEnabled g;
                       prevTurn := turn g;
                       nextTurn := nextTurn;
                       time := now;
                       pileBeforeSize := None |} in
                  Some {| deck := newDeck;
                          players := newPlayers;
                          turn := nextTurn;
                          aiEnabled := aiEnabled g;
                          gameOver := gameOver g;
                          winner := winner g;
                          message := None;
                          moveCount := moveCount g + 1;
                          moveLog := moveLog g ++ [moveEntry] |}
              end
        end
    end.

(** [payload.owner], accepted only when it is ['player'] or ['ai']. *)
Definition parseSide (s : string) : option Side :=
  if bool_decide (s = "player") then Some player
  else if bool_decide (s = "ai") then Some ai
  else None.

(** [canDropOnTargetPileContainer(targetSide, pileIndex, payload)] on the
    rendered state [game]; [None] is a TypeError on a missing pile. *)
Definition canDropOnTargetPileContainer (game : GameState)
    (targetSide : Side) (pileIndex : nat) (payload : option Payload)
    : option bool :=
  match payload with
  | None => Some false
  | Some payload =>
      if bool_decide (source payload <> "hand") then Some false
      else
        match parseSide (owner payload) with
        | None => Some false
        | Some actor =>
            if bool_decide (actor <> turn game) then Some false
            else
              match list_find (fun c => id c = payloadCardId payload)
                      (hand (getSide (players game) actor)) with
              | None => Some false
              | Some (_, card) =>
                  if negb (isNumericOrAce card) then Some false
                  else
                    match piles (getSide (players game) targetSide)
                          !! pileIndex with
                    | None => None
                    | Some pile =>
                        Some (canPlaceCardOnTarget card (cards pile)
                                actor targetSide)
                    end
              end
        end
  end.

(** The candidates one card contributes on pile [i] of the AI's own side. *)
Definition ownPileMoves (g : GameState) (card : Card) (i : nat)
    : option (list Move) :=
  pile ← piles (ofAi (players g)) !! i;
  Some
    (if canPlaceCardOnTarget card (cards pile) ai ai then
       if isFaceCard card && bool_decide (Z.of_nat (length (cards pile)) > 0)
       then [ {| moveActor := ai; moveTarget := ai; moveCardId := id card;
                 movePileIndex := i;
                 tvi := Some (Z.of_nat (length (cards pile)) - 1) |} ]
       else if isNumericOrAce card
       then [ {| moveActor := ai; moveTarget := ai; moveCardId := id card;
                 movePileIndex := i; tvi := None |} ]
       else []
     else []).

(** The candidates one card contributes on pile [i] of the human side. *)
Definition opponentPileMoves (g : GameState) (card : Card) (i : nat)
    : option (list Move) :=
  pile ← piles (ofPlayer (players g)) !! i;
  Some
    (if canPlaceCardOnTarget card (cards pile) ai player
        && isFaceCard card
        && bool_decide (Z.of_nat (length (cards pile)) > 0)
     then [ {| moveActor := ai; moveTarget := player; moveCardId := id card;
               movePileIndex := i;
               tvi := Some (Z.of_nat (length (cards pile)) - 1) |} ]
     else []).

(** The body of [ai.hand.forEach]: own piles 0..2, then opponent piles
    0..2. *)
Definition cardMoves (g : GameState) (card : Card) : option (list Move) :=
  own ← mapM (ownPileMoves g card) [0; 1; 2]%nat;
  opp ← mapM (opponentPileMoves g card) [0; 1; 2]%nat;
  Some (concat own ++ concat opp).

(** The array [moves] after the enumeration. *)
Definition aiMoves (g : GameState) : option (list Move) :=
  perCard ← mapM (cardMoves g) (hand (ofAi (players g)));
  Some (concat perCard).

(** The callback of the AI timer, run on the current state [g].
    [localToken] and [scheduledMoveCount] were captured when the timer was
    set, [currentToken] is [aiMoveTokenRef.current] when it fires, and
    [rnd] stands for the draw of [Math.random()] that selects the pick. *)
Definition aiTimerCallback (localToken currentToken scheduledMoveCount : Z)
    (rnd : nat) (now : Z) (g : GameState) : option GameState :=
  if gameOver g || negb (aiEnabled g) || bool_decide (turn g <> ai)
  then Some g
  else if bool_decide (currentToken <> localToken) then Some g
  else if bool_decide (moveCount g <> scheduledMoveCount) then Some g
  else
    moves ← aiMoves g;
    if bool_decide (Z.of_nat (length moves) = 0) then
      Some (withTurnMessage g player
              (Some "Opponent skipped (no valid moves)."))
    else
      match moves !! (rnd `mod` length moves)%nat with
      | Some pick =>
          placeCard now (moveActor pick) (moveTarget pick) (moveCardId pick)
            (movePileIndex pick) (tvi pick) g
      | None => Some g
      end.

(** [canDropOnTargetPileCard(targetSide, pileIndex, targetVisibleIndex,
    payload)] on the rendered state [game]; [None] is a TypeError on a
    missing pile. *)
Definition canDropOnTargetPileCard (game : GameState) (targetSide : Side)
    (pileIndex : nat) (targetVisibleIndex : option Z)
    (payload : option Payload) : option bool :=
  match payload with
  | None => Some false
  | Some payload =>
      if bool_decide (source payload <> "hand") then Some false
      else
        match parseSide (owner payload) with
        | None => Some false
        | Some actor =>
            if bool_decide (actor <> turn game) then Some false
            else
              match list_find (fun c => id c = payloadCardId payload)
                      (hand (getSide (players game) actor)) with
              | None => Some false
              | Some (_, card) =>
                  if negb (isFaceCard card) then Some false
                  else
                    match piles (getSide (players game) targetSide)
                          !! pileIndex with
                    | None => None
                    | Some pile =>
                        if negb (canPlaceCardOnTarget card (cards pile)
                                   actor targetSide)
                        then Some false
                        else if bool_decide (rank card = RK) then
                          let pileCards := cards pile in
                          let targetCard :=
                            tvi ← targetVisibleIndex; at_index pileCards tvi in
                          let isValidTarget :=
                            match targetCard with
                            | Some tc => isNumericOrAce tc && negb (removed tc)
                            | None => false
                            end in
                          if negb isValidTarget then Some false else Some true
                        else Some true
                    end
              end
        end
  end.

(** The body that [onDropToPlayerPileContainer] and
    [onDropToAiPileContainer] share, for the target side [targetSide].
    [data] is the payload that [JSON.parse(data)] yields, [None] when the
    parse or a property read raises (the [catch] ignores it); the state a
    [setGame] call leaves is returned, the state itself when the handler
    returns without one. *)
Definition onDropToPileContainer (now : Z) (targetSide : Side)
    (pileIndex : nat) (data : option Payload) (game : GameState)
    : option GameState :=
  if gameOver game then Some game
  else
    match data with
    | None => Some game
    | Some payload =>
        if bool_decide (source payload <> "hand") then Some game
        else
          match parseSide (owner payload) with
          | None => Some game
          | Some actor =>
              if bool_decide (actor <> turn game) then Some game
              else
                match list_find (fun c => id c = payloadCardId payload)
                        (hand (getSide (players game) actor)) with
                | None => Some game
                | Some (_, card) =>
                    if negb (isNumericOrAce card) then
                      Some (withMessage game
                              (Some "Picture cards (J/Q/K) must be dropped onto a specific card."))
                    else
                      placeCard now actor targetSide (payloadCardId payload)
                        pileIndex None game
                end
          end
    end.

Definition onDropToPlayerPileContainer (now : Z) :=
  onDropToPileContainer now player.

Definition onDropToAiPileContainer (now : Z) :=
  onDropToPileContainer now ai.

(** The body that [onDropToPlayerPileCard] and [onDropToAiPileCard]
    share. *)
Definition onDropToPileCard (now : Z) (targetSide : Side) (pileIndex : nat)
    (targetVisibleIndex : option Z) (data : option Payload)
    (game : GameState) : option GameState :=
  if gameOver game then Some game
  else
    match data with
    | None => Some game
    | Some payload =>
        if bool_decide (source payload <> "hand") then Some game
        else
          match parseSide (owner payload) with
          | None => Some game
          | Some actor =>
              if bool_decide (actor <> turn game) then Some game
              else
                match list_find (fun c => id c = payloadCardId payload)
                        (hand (getSide (players game) actor)) with
                | None => Some game
                | Some (_, card) =>
                    if negb (isFaceCard card) then Some game
                    else
                      placeCard now actor targetSide (payloadCardId payload)
                        pileIndex targetVisibleIndex game
                end
          end
    end.

Definition onDropToPlayerPileCard (now : Z) := onDropToPileCard now player.

Definition onDropToAiPileCard (now : Z) := onDropToPileCard now ai.

End Core.

(** The string of a side, as the [owner] prop of a hand. *)
Definition sideName (s : Side) : string :=
  match s with
  | player => "player"
  | ai => "ai"
  end.

(** The [disabled] prop App.jsx passes to the hand of [owner]:
    [game.turn !== owner || game.gameOver]. *)
Definition handDisabled (game : GameState) (owner : Side) : bool :=
  bool_decide (turn game <> owner) || gameOver game.

(** [onDragStart] of Hand.jsx: the payload put on the data transfer, none
    on a disabled hand.  The transfer carries [JSON.stringify(payload)] and
    the drop handlers read it back with [JSON.parse]. *)
Definition onDragStart (owner : Side) (disabled : bool) (card : Card)
    : option Payload :=
  if disabled then None
  else Some {| source := "hand"; owner := sideName owner;
               payloadCardId := id card |}.

End App.

Export App.

(* ===================================================================== *)
(** ** Reference notions the properties are stated against *)
(* ===================================================================== *)

Module Reference.

(** The live Kings bound to a base card: those that follow it in raw order
    before the next numeric/Ace card. *)
Fixpoint boundKings (rest : list Card) : nat :=
  match rest with
  | [] => 0
  | c :: rest' =>
      if isNumericOrAce c then 0%nat
      else ((if isLive c && bool_decide (rank c = RK) then 1 else 0)
            + boundKings rest')%nat
  end.

(** The scoring formula as the specification words it: the sum over live
    numeric/Ace cards of base value times 2 per bound King. *)
Fixpoint formulaTotal (rawCards : list Card) : Z :=
  match rawCards with
  | [] => 0
  | c :: rest =>
      (if isNumericOrAce c && isLive c
       then getCardValue c * 2 ^ Z.of_nat (boundKings rest) else 0)
      + formulaTotal rest
  end.

(** The values of the live numeric/Ace cards of a pile, in raw order. *)
Definition liveValues (rawCards : list Card) : list Z :=
  getCardValue
    <$> filter (fun c => isNumericOrAce c && isLive c = true) rawCards.




(** The size of the target pile of entry [i] when it was played: every
    earlier entry of the log put one card on some pile. *)
Definition pileSizeBefore (log : list MoveLogEntry) (i : nat) : nat :=
  match log !! i with
  | Some m =>
      length (filter (fun e => target e = target m /\ pileIndex e = pileIndex m)
                (take i log))
  | None => 0
  end.


(** Two consecutive log entries share the actor. *)
Definition sameActorTwice (log : list MoveLogEntry) : Prop :=
  exists j e1 e2, log !! j = Some e1 /\ log !! S j = Some e2 /\
                  actor e1 = actor e2.

(** The game is not over and [turn] is not the opponent of the actor of
    the last entry. *)
Definition turnOutOfStep (g : GameState) : Prop :=
  gameOver g = false /\
  exists e, last (moveLog g) = Some e /\ turn g <> opponentOf (actor e).

(** An entry records a Jack together with a [pileBeforeSize] of 0. *)
Definition recordedJackOnEmpty (log : list MoveLogEntry) : Prop :=
  exists m, m ∈ log /\ cardRank m = RJ /\ pileBeforeSize m = Some 0.

(** An entry plays a numeric/Ace card onto the pile of the other side. *)
Definition numericOnOpponent (log : list MoveLogEntry) : Prop :=
  exists m, m ∈ log /\ actor m <> target m /\
            cardRank m <> RJ /\ cardRank m <> RQ /\ cardRank m <> RK.

(** A card as it was, or marked removed. *)
Definition ghosted (c c' : Card) : Prop := c' = c \/ c' = markRemoved c.

(** The ids of the cards of one side: hand, then piles in order. *)
Definition sideIds (ps : PlayerState) : list string :=
  id <$> (hand ps ++ concat (cards <$> piles ps)).

(** The ids of all cards of a game: deck, human side, AI side. *)
Definition cardIds (g : GameState) : list string :=
  (id <$> deck g) ++ sideIds (ofPlayer (players g))
  ++ sideIds (ofAi (players g)).

(** The move count is the length of the move log. *)
Definition logCounted (g : GameState) : Prop :=
  moveCount g = Z.of_nat (length (moveLog g)).


(** The card movement that the log entry [e] of a move of side [a]
    records: a card of the hand of [a] with the logged rank leaves the
    hand, the pile the entry names takes the raw list that the insertion
    step of [placeCard] builds from it at the logged target index, and [a]
    draws the front card of the deck. *)
Definition cardPlayed (a : Side) (e : MoveLogEntry) (g g' : GameState)
    : Prop :=
  exists (handIndex : nat) card targetPile newRaw,
    hand (getSide (players g) a) !! handIndex = Some card /\
    cardRank e = rank card /\
    piles (getSide (players g) (target e)) !! pileIndex e
      = Some targetPile /\
    App.resolveInsertion card (cards targetPile) (targetVisibleIndex e)
      = inr newRaw /\
    hand (getSide (players g') a)
      = delete handIndex (hand (getSide (players g) a))
        ++ option_list (head (deck g)) /\
    piles (getSide (players g') (target e))
      = <[pileIndex e := {| cards := newRaw |}]>
          (piles (getSide (players g) (target e))) /\
    deck g' = tail (deck g).

(** The step from [g] to [g'] commits one move of side [a]: one entry of
    [a] is appended to the log, the move count grows by one, the turn
    passes to the opponent of [a], and the card the entry records has left
    the hand of [a] and lies on the pile the entry names. *)
Definition committedBy (a : Side) (g g' : GameState) : Prop :=
  exists e,
    moveLog g' = moveLog g ++ [e] /\
    actor e = a /\ prevTurn e = turn g /\ nextTurn e = opponentOf a /\
    pileBeforeSize e = None /\
    turn g' = opponentOf a /\
    moveCount g' = moveCount g + 1 /\
    gameOver g = false /\ gameOver g' = false /\
    winner g' = winner g /\ aiEnabled g' = aiEnabled g /\
    cardPlayed a e g g'.

(** The winner with the two sides exchanged. *)
Definition swapWinner (w : Winner) : Winner :=
  match w with
  | wins s => wins (opponentOf s)
  | tie => tie
  end.

(** The probe is the [ok] field of the validator. *)
Definition probeAgrees
    (validate : Card -> list Card -> Side -> Side -> Validation)
    (canPlace : Card -> list Card -> Side -> Side -> bool) : Prop :=
  forall card pileCards a t,
    canPlace card pileCards a t = ok (validate card pileCards a t).

(** The state keeps every field of [g] but [message]. *)
Definition sameButMessage (g g' : GameState) : Prop :=
  deck g' = deck g /\ players g' = players g /\ turn g' = turn g /\
  aiEnabled g' = aiEnabled g /\ gameOver g' = gameOver g /\
  winner g' = winner g /\ moveCount g' = moveCount g /\
  moveLog g' = moveLog g.

End Reference.

Export Reference.

(* ===================================================================== *)
(** ** Sample cards and states *)
(* ===================================================================== *)

Module Samples.

Definition card (name : string) (r : Rank) : Card :=
  {| id := name; suit := spades; rank := r; color := black;
     removed := false |}.

Definition emptyPiles : list Pile :=
  [ {| cards := [] |}; {| cards := [] |}; {| cards := [] |} ].

(** A state in the shape [initialGame] builds, with chosen hands and deck:
    it is the human's turn and every pile is empty. *)
Definition fresh (playerHand aiHand deckCards : list Card) : GameState :=
  {| deck := deckCards;
     players :=
       {| ofPlayer := {| hand := playerHand; piles := emptyPiles |};
          ofAi := {| hand := aiHand; piles := emptyPiles |} |};
     turn := player;
     aiEnabled := true;
     gameOver := false;
     winner := None;
     message := None;
     moveCount := 0;
     moveLog := [] |}.

(** The entry of an Ace played by the human onto the first own pile. *)
Definition aceFirst : MoveLogEntry :=
  {| actor := player; target := player; cardRank := RA; pileIndex := 0;
     targetVisibleIndex := None; aiEnabledAtMove := true;
     prevTurn := player; nextTurn := ai; time := 0;
     pileBeforeSize := None |}.

(** After that first move: the human holds a Queen and a 7, the first own
    pile holds the Ace, and it is the AI's turn. *)
Definition queenInHand : GameState :=
  {| deck := [card "9S" R9];
     players :=
       {| ofPlayer :=
            {| hand := [card "QS" RQ; card "7S" R7];
               piles := [ {| cards := [card "AS" RA] |};
                          {| cards := [] |}; {| cards := [] |} ] |};
          ofAi := {| hand := [card "KS" RK]; piles := emptyPiles |} |};
     turn := ai;
     aiEnabled := true;
     gameOver := false;
     winner := None;
     message := None;
     moveCount := 1;
     moveLog := [aceFirst] |}.

(** A log entry recording a Jack as the very first move of a game. *)
Definition jackFirst : MoveLogEntry :=
  {| actor := player; target := player; cardRank := RJ; pileIndex := 0;
     targetVisibleIndex := None; aiEnabledAtMove := true;
     prevTurn := player; nextTurn := ai; time := 0;
     pileBeforeSize := None |}.

(** The state after a Jack was committed as the first move of a game, onto
    the empty first pile of the human side. *)
Definition jackOnEmpty : GameState :=
  {| deck := [];
     players :=
       {| ofPlayer :=
            {| hand := [card "7S" R7];
               piles := [ {| cards := [card "JS" RJ] |};
                          {| cards := [] |}; {| cards := [] |} ] |};
          ofAi := {| hand := [card "KS" RK]; piles := emptyPiles |} |};
     turn := ai;
     aiEnabled := true;
     gameOver := false;
     winner := None;
     message := None;
     moveCount := 1;
     moveLog := [jackFirst] |}.

(** It is the AI's turn, it holds a single King, and no pile holds a
    card. *)
Definition aiStuck : GameState :=
  {| deck := [card "9S" R9];
     players :=
       {| ofPlayer := {| hand := [card "7S" R7]; piles := emptyPiles |};
          ofAi := {| hand := [card "KS" RK]; piles := emptyPiles |} |};
     turn := ai;
     aiEnabled := true;
     gameOver := false;
     winner := None;
     message := None;
     moveCount := 0;
     moveLog := [] |}.

(** Three piles that hold the same three ranks each. *)
Definition pilesOf (r1 r2 r3 : Rank) : list Pile :=
  let p := {| cards := [card "a" r1; card "b" r2; card "c" r3] |} in
  [p; p; p].

(** Both sides qualify at once, with 21 on each pile of the human and 26
    on each pile of the AI. *)
Definition bothInRange : GameState :=
  {| deck := [];
     players :=
       {| ofPlayer := {| hand := []; piles := pilesOf R10 R9 R2 |};
          ofAi := {| hand := []; piles := pilesOf R10 R9 R7 |} |};
     turn := player;
     aiEnabled := true;
     gameOver := false;
     winner := None;
     message := None;
     moveCount := 18;
     moveLog := [] |}.

(** The finished game the end-condition effect makes of it. *)
Definition finished : GameState := withWinner bothInRange (wins ai).

(** The human plays the card named [name] onto the first own pile. *)
Definition play (name : string) (target : option Z) (g : GameState)
    : option GameState :=
  placeCard canPlaceCardOnTargetWithReason 0 player player name 0 target g.

(** The raw cards of the first pile of the human. *)
Definition firstPile (g : GameState) : list Card :=
  default [] (cards <$> piles (ofPlayer (players g)) !! 0%nat).

(** The hand the scenario of the specification starts from. *)
Definition scenarioStart : GameState :=
  fresh [card "AS" RA; card "5S" R5; card "3S" R3; card "QS" RQ;
         card "2S" R2] [card "KS" RK] [].

(** After the Ace of the human: the AI has run out of cards. *)
Definition aiOutOfCards : GameState :=
  {| deck := [];
     players :=
       {| ofPlayer :=
            {| hand := [card "7S" R7];
               piles := [ {| cards := [card "AS" RA] |};
                          {| cards := [] |}; {| cards := [] |} ] |};
          ofAi := {| hand := []; piles := emptyPiles |} |};
     turn := ai;
     aiEnabled := true;
     gameOver := false;
     winner := None;
     message := None;
     moveCount := 1;
     moveLog := [aceFirst] |}.

(** The payload of a drag of the card named [name] from the human's
    hand. *)
Definition dragOf (name : string) : Payload :=
  {| source := "hand"; owner := "player"; payloadCardId := name |}.


End Samples.

(* ===================================================================== *)
(** ** Scoring *)
(* ===================================================================== *)

Section Scoring.

Lemma getCardValue_nonneg c : 0 <= getCardValue c.
Proof. unfold getCardValue. destruct (rank c); lia. Qed.

Lemma formulaTotal_nonneg raw : 0 <= formulaTotal raw.
Proof.
  induction raw as [|c rest IH]; simpl; [lia|].
  destruct (isNumericOrAce c && isLive c); [|lia].
  pose proof (getCardValue_nonneg c).
  assert (0 <= 2 ^ Z.of_nat (boundKings rest)) by (apply Z.pow_nonneg; lia).
  nia.
Qed.

(** The slot fold from any running state: the open slot still collects the
    Kings ahead of the next base card. *)
Lemma scoreFold_formula raw : forall s,
  slotsTotal (foldl scoreStep s raw)
  = closedTotal s
    + slotBase s * slotMultiplier s * 2 ^ Z.of_nat (boundKings raw)
    + formulaTotal raw.
Proof.
  induction raw as [|c rest IH]; intros s; simpl.
  - unfold slotsTotal. lia.
  - rewrite IH. unfold scoreStep.
    destruct (isNumericOrAce c) eqn:Hn; simpl.
    + unfold slotsTotal. destruct (isLive c); simpl; lia.
    + destruct (isLive c && bool_decide (rank c = RK)); simpl.
      * rewrite Nat2Z.inj_succ, Z.pow_succ_r by lia. lia.
      * lia.
Qed.

Lemma pileTotal_formula raw : pileTotal raw = formulaTotal raw.
Proof.
  unfold pileTotal. rewrite scoreFold_formula. simpl. lia.
Qed.

Lemma foldr_add_nonneg (l : list Z) :
  Forall (fun t => 0 <= t) l -> 0 <= foldr Z.add 0 l.
Proof. induction 1; simpl; lia. Qed.

Lemma kings_only_formula kings :
  Forall (fun k => rank k = RK /\ removed k = false) kings ->
  boundKings kings = length kings /\ formulaTotal kings = 0.
Proof.
  induction 1 as [|k ks [Hk Hr] _ [IHb IHf]]; simpl; [done|].
  unfold isNumericOrAce, isLive. rewrite Hk, Hr. simpl.
  rewrite IHb, IHf. done.
Qed.

(** C8: the pile total computed by the slot fold equals the sum over the
    live numeric/Ace cards of base value times 2 for every King bound to
    the card, with Ace 1, 2-10 literal and Jack/Queen 0; a live base card
    followed by n Kings scores its value times 2^n; a removed card adds
    nothing, whatever Kings follow it; hence every per-pile total and the
    grand total of [computePlayerTotals] is non-negative. *)
Theorem pile_total_formula_and_nonneg :
  (forall raw, pileTotal raw = formulaTotal raw) /\
  (forall c, getCardValue c =
     match rank c with
     | RA => 1 | R2 => 2 | R3 => 3 | R4 => 4 | R5 => 5 | R6 => 6
     | R7 => 7 | R8 => 8 | R9 => 9 | R10 => 10 | RJ | RQ | RK => 0
     end) /\
  (forall c kings, isNumericOrAce c = true -> removed c = false ->
     Forall (fun k => rank k = RK /\ removed k = false) kings ->
     pileTotal (c :: kings) = getCardValue c * 2 ^ Z.of_nat (length kings)) /\
  (forall c rest, removed c = true -> pileTotal (c :: rest) = pileTotal rest) /\
  (forall raw, 0 <= pileTotal raw) /\
  (forall piles,
     Forall (fun t => 0 <= t) (perPile (Rules.computePlayerTotals piles)) /\
     0 <= total (Rules.computePlayerTotals piles)).
Proof.
  assert (Hnn : forall raw, 0 <= pileTotal raw).
  { intros raw. rewrite pileTotal_formula. apply formulaTotal_nonneg. }
  split_and!.
  - apply pileTotal_formula.
  - intros c. unfold getCardValue. by destruct (rank c).
  - intros c kings Hn Hr Hk. rewrite pileTotal_formula. simpl.
    destruct (kings_only_formula kings Hk) as [-> ->].
    unfold isLive. rewrite Hn, Hr. simpl. lia.
  - intros c rest Hr. rewrite !pileTotal_formula. simpl.
    unfold isLive. rewrite Hr, andb_false_r. lia.
  - exact Hnn.
  - intros piles.
    assert (Hper : Forall (fun t => 0 <= t)
                     (perPile (Rules.computePlayerTotals piles))).
    { simpl. apply Forall_fmap, Forall_forall. intros p _. apply Hnn. }
    split; [exact Hper|]. simpl. by apply foldr_add_nonneg.
Qed.

(** An Ace doubled twice beside a ghosted 9 scores 4. *)
Lemma pile_total_formula_and_nonneg_witness :
  pileTotal [Samples.card "AS" RA; Samples.card "KS" RK; Samples.card "KH" RK]
  = 4 /\
  pileTotal (markRemoved (Samples.card "9S" R9)
             :: [Samples.card "KS" RK; Samples.card "AS" RA])
  = pileTotal [Samples.card "KS" RK; Samples.card "AS" RA].
Proof.
  destruct pile_total_formula_and_nonneg as (_ & _ & Hk & Hr & _).
  split.
  - apply (Hk (Samples.card "AS" RA)
             [Samples.card "KS" RK; Samples.card "KH" RK]);
      [reflexivity | reflexivity |].
    repeat constructor.
  - apply Hr. reflexivity.
Defined.

End Scoring.

(* ===================================================================== *)
(** ** Direction *)
(* ===================================================================== *)

Section DirectionFacts.

Implicit Types (c q : Card) (raw pre post : list Card) (st : DirectionState).


Lemma liveValues_app raw1 raw2 :
  liveValues (raw1 ++ raw2) = liveValues raw1 ++ liveValues raw2.
Proof. unfold liveValues. by rewrite filter_app, fmap_app. Qed.

(** The four ways a card moves the direction state. *)
Lemma directionStep_cases st c :
  (removed c = true /\ directionStep st c = st) \/
  (removed c = false /\ isNumericOrAce c = true /\
   directionStep st c =
     {| lastValue := Some (getCardValue c);
        direction :=
          match direction st, lastValue st with
          | Some d, _ => Some d
          | None, Some l =>
              if bool_decide (l < getCardValue c) then Some ascending
              else if bool_decide (getCardValue c < l) then Some descending
              else None
          | None, None => None
          end |}) \/
  (removed c = false /\ isNumericOrAce c = false /\ rank c = RQ /\
   directionStep st c =
     {| lastValue := lastValue st;
        direction := flipDirection <$> direction st |}) \/
  (removed c = false /\ isNumericOrAce c = false /\ rank c <> RQ /\
   directionStep st c = st).
Proof.
  unfold directionStep.
  destruct (removed c); [by left|].
  destruct (isNumericOrAce c); [by right; left|].
  destruct (decide (rank c = RQ)) as [Hq|Hq].
  - rewrite bool_decide_eq_true_2 by done. by right; right; left.
  - rewrite bool_decide_eq_false_2 by done. by right; right; right.
Qed.





(** An active direction is never lost. *)
Lemma direction_fold_Some raw : forall st d,
  direction st = Some d -> is_Some (direction (foldl directionStep st raw)).
Proof.
  induction raw as [|c rest IH]; intros st d Hd; [by simpl; eauto|].
  cbn [foldl].
  destruct (directionStep_cases st c)
    as [(_ & ->)|[(_ & _ & ->)|[(_ & _ & _ & ->)|(_ & _ & _ & ->)]]];
    try (by eapply IH).
  - eapply IH. simpl. by rewrite Hd.
  - eapply IH. simpl. by rewrite Hd.
Qed.








End DirectionFacts.

(* ===================================================================== *)
(** ** The reducer [placeCard] *)
(* ===================================================================== *)

Section ListFacts.

Context {A : Type}.
Implicit Types (l : list A) (x : A).

(** [arr.map((p, idx) => idx === i ? x : p)] overwrites position [i]. *)
Lemma imap_overwrite l (i : nat) x :
  imap (fun idx p => if bool_decide (idx = i) then x else p) l = <[i := x]> l.
Proof.
  revert i. induction l as [|y l IH]; intros i; [done|].
  rewrite imap_cons. destruct i as [|i]; simpl.
  - f_equal. rewrite <- (list_fmap_id l) at 2. rewrite <- imap_const.
    apply imap_ext. intros j z _. simpl. done.
  - f_equal. rewrite <- IH. apply imap_ext. intros j z _. simpl.
    destruct (decide (j = i)) as [->|Hne].
    + by rewrite !bool_decide_eq_true_2.
    + rewrite !bool_decide_eq_false_2; [done|done|lia].
Qed.

(** Inserting right after an existing position. *)
Lemma spliceInsert_after l (i : nat) x y :
  l !! i = Some y ->
  spliceInsert l (Z.of_nat i + 1) x = take i l ++ y :: x :: drop (S i) l.
Proof.
  intros Hi. pose proof (lookup_lt_Some _ _ _ Hi) as Hlt.
  unfold spliceInsert. rewrite bool_decide_eq_false_2 by lia.
  replace (Z.to_nat (Z.min (Z.of_nat i + 1) (Z.of_nat (length l)))) with (S i)
    by lia.
  rewrite (take_S_r _ _ _ Hi), <- app_assoc. done.
Qed.

Lemma at_index_nat l (i : nat) : at_index l (Z.of_nat i) = l !! i.
Proof.
  unfold at_index. rewrite bool_decide_eq_false_2 by lia.
  by rewrite Nat2Z.id.
Qed.

End ListFacts.

Section Reducer.

Variable validate : Card -> list Card -> Side -> Side -> Validation.

Implicit Types (g : GameState) (a t : Side) (card : Card).

Lemma withMessage_same g m : sameButMessage g (withMessage g m).
Proof. by unfold sameButMessage. Qed.

Lemma sameButMessage_refl g : sameButMessage g g.
Proof. by unfold sameButMessage. Qed.

Lemma getSide_setSide ps a t v :
  getSide (setSide ps a v) t = if bool_decide (t = a) then v else getSide ps t.
Proof. by destruct a, t. Qed.

Lemma opponentOf_neq a : opponentOf a <> a.
Proof. by destruct a. Qed.

Lemma drawOne_head_tail (d : list Card) : drawOne d = (head d, tail d).
Proof. by destruct d. Qed.

(** The shape of the new raw list when the insertion is resolved. *)
Lemma resolveInsertion_shape card pileCards tvi newRaw :
  resolveInsertion card pileCards tvi = inr newRaw ->
  (isNumericOrAce card = true -> newRaw = pileCards ++ [card]) /\
  (isNumericOrAce card = false -> tvi = None ->
     pileCards = [] /\ rank card <> RK /\ newRaw = [card]) /\
  (isNumericOrAce card = false ->
     forall (i : nat) tc, tvi = Some (Z.of_nat i) -> pileCards !! i = Some tc ->
       (rank card = RK -> isNumericOrAce tc = true /\ removed tc = false) /\
       newRaw = take i pileCards
                ++ (if bool_decide (rank card = RJ) then markRemoved tc else tc)
                :: card :: drop (S i) pileCards).
Proof.
  unfold resolveInsertion. intros Hres. split_and!.
  - intros Hn. rewrite Hn in Hres. by simplify_eq.
  - intros Hn ->. rewrite Hn in Hres.
    case_bool_decide as Hlen; [done|].
    case_bool_decide as Hk; [done|].
    destruct pileCards; [|simpl in Hlen; lia]. by simplify_eq.
  - intros Hn i tc -> Hi. rewrite Hn in Hres.
    rewrite at_index_nat, Hi in Hres.
    rewrite (spliceInsert_after _ _ _ _ Hi), Nat2Z.id in Hres.
    pose proof (lookup_lt_Some _ _ _ Hi) as Hlt.
    assert (Hins : <[i:=markRemoved tc]>
                     (take i pileCards ++ tc :: card :: drop (S i) pileCards)
                   = take i pileCards
                     ++ markRemoved tc :: card :: drop (S i) pileCards).
    { rewrite insert_app_r_alt by (rewrite length_take; lia).
      rewrite length_take. replace (i - i `min` length pileCards)%nat with 0%nat
        by lia. done. }
    case_bool_decide as Hk.
    + destruct (isNumericOrAce tc && negb (removed tc)) eqn:Hv; [|done].
      simpl in Hres. apply andb_true_iff in Hv as [Hv1 Hv2].
      apply negb_true_iff in Hv2.
      rewrite bool_decide_eq_false_2 in Hres by congruence.
      rewrite bool_decide_eq_false_2 by congruence.
      split; [done|]. by simplify_eq.
    + simpl in Hres. split; [done|].
      case_bool_decide; simplify_eq; [by rewrite Hins|done].
Qed.

(** The state an accepted move produces, field by field as the source
    assembles it. *)
Lemma placeCard_accepted now a t cardId p tvi g handIndex card targetPile
    newRaw :
  gameOver g = false ->
  list_find (fun c => id c = cardId) (hand (getSide (players g) a))
    = Some (handIndex, card) ->
  piles (getSide (players g) t) !! p = Some targetPile ->
  ok (validate card (cards targetPile) a t) = true ->
  resolveInsertion card (cards targetPile) tvi = inr newRaw ->
  exists g',
    placeCard validate now a t cardId p tvi g = Some g' /\
    hand (getSide (players g') a)
      = delete handIndex (hand (getSide (players g) a))
        ++ option_list (head (deck g)) /\
    piles (getSide (players g') t)
      = <[p := {| cards := newRaw |}]> (piles (getSide (players g) t)) /\
    (a <> t ->
       hand (getSide (players g') t) = hand (getSide (players g) t) /\
       piles (getSide (players g') a) = piles (getSide (players g) a)) /\
    deck g' = tail (deck g) /\
    turn g' = opponentOf a /\
    moveCount g' = moveCount g + 1 /\
    moveLog g'
      = moveLog g
        ++ [ {| actor := a; target := t; cardRank := rank card;
                pileIndex := p; targetVisibleIndex := tvi;
                aiEnabledAtMove := aiEnabled g; prevTurn := turn g;
                nextTurn := opponentOf a; time := now;
                pileBeforeSize := None |} ] /\
    message g' = None /\
    aiEnabled g' = aiEnabled g /\ gameOver g' = false /\
    winner g' = winner g.
Proof.
  intros Hover Hfind Hpile Hok Hres. unfold placeCard.
  rewrite Hover, Hfind, Hpile, Hok, Hres, drawOne_head_tail. simpl.
  eexists. split; [reflexivity|].
  destruct a, t; simpl; rewrite imap_overwrite; split_and!; try done;
    by intros [].
Qed.

Lemma resolveInsertion_message card pileCards tvi msg :
  resolveInsertion card pileCards tvi = inl msg -> msg <> "".
Proof.
  unfold resolveInsertion. intros Hres.
  repeat (case_match; simplify_eq); done.
Qed.

Lemma isFaceCard_not_numeric card :
  isFaceCard card = negb (isNumericOrAce card).
Proof. unfold isFaceCard, isNumericOrAce. by destruct (rank card). Qed.

(** C1 (amended): in a game that is not over, when the actor holds the
    card, the validator accepts it and the face-card target checks of
    [placeCard] pass, the call commits: the card leaves the actor's hand;
    the actor draws the front card of the deck exactly when the deck is
    non-empty and the deck loses that card; the target pile takes the new
    raw list, which appends a numeric/Ace card, puts a face card right
    after an existing targeted card and marks that card removed when the
    face card is a Jack (a Queen or Jack without target starts an empty
    pile); the turn passes to the opponent of the actor; one entry is
    appended to the move log; the move count grows by 1. *)
Theorem placeCard_commits now a t cardId p tvi g handIndex card targetPile
    newRaw :
  gameOver g = false ->
  list_find (fun c => id c = cardId) (hand (getSide (players g) a))
    = Some (handIndex, card) ->
  piles (getSide (players g) t) !! p = Some targetPile ->
  ok (validate card (cards targetPile) a t) = true ->
  resolveInsertion card (cards targetPile) tvi = inr newRaw ->
  exists g' drawn,
    placeCard validate now a t cardId p tvi g = Some g' /\
    hand (getSide (players g') a)
      = delete handIndex (hand (getSide (players g) a)) ++ option_list drawn /\
    deck g = option_list drawn ++ deck g' /\
    (is_Some drawn <-> deck g <> []) /\
    piles (getSide (players g') t)
      = <[p := {| cards := newRaw |}]> (piles (getSide (players g) t)) /\
    (isNumericOrAce card = true -> newRaw = cards targetPile ++ [card]) /\
    (isNumericOrAce card = false -> tvi = None ->
       cards targetPile = [] /\ newRaw = [card]) /\
    (isNumericOrAce card = false ->
       forall (i : nat) tc, tvi = Some (Z.of_nat i) ->
         cards targetPile !! i = Some tc ->
         newRaw = take i (cards targetPile)
                  ++ (if bool_decide (rank card = RJ)
                      then markRemoved tc else tc)
                  :: card :: drop (S i) (cards targetPile)) /\
    turn g' = opponentOf a /\ opponentOf a <> a /\
    moveLog g'
      = moveLog g
        ++ [ {| actor := a; target := t; cardRank := rank card;
                pileIndex := p; targetVisibleIndex := tvi;
                aiEnabledAtMove := aiEnabled g; prevTurn := turn g;
                nextTurn := opponentOf a; time := now;
                pileBeforeSize := None |} ] /\
    moveCount g' = moveCount g + 1.
Proof.
  intros Hover Hfind Hpile Hok Hres.
  destruct (placeCard_accepted now a t cardId p tvi g handIndex card
              targetPile newRaw Hover Hfind Hpile Hok Hres)
    as (g' & Hrun & Hhand & Hpiles & _ & Hdeck & Hturn & Hcount & Hlog & _).
  destruct (resolveInsertion_shape _ _ _ _ Hres) as (Hnum & Hnone & Hsome).
  exists g', (head (deck g)). split_and!; try done.
  - rewrite Hdeck. by destruct (deck g).
  - destruct (deck g); simpl; split; try done; by intros [? [=]].
  - intros Hn Ht. by destruct (Hnone Hn Ht) as (? & _ & ?).
  - intros Hn i tc Ht Hi. by destruct (Hsome Hn i tc Ht Hi).
  - apply opponentOf_neq.
Qed.

(** C4 (amended): a call that [placeCard] rejects returns a state equal
    to the prior one in every field but [message]: hands, piles, deck,
    turn, move count and move log are unchanged.  When the game is over or
    the actor does not hold the card the state is returned as it is, with
    no message attached; when the validator or a face-card target check
    fails a non-empty rejection message is attached. *)
Theorem placeCard_rejects now a t cardId p tvi g :
  gameOver g = true \/
  list_find (fun c => id c = cardId) (hand (getSide (players g) a)) = None \/
  (exists handIndex card targetPile,
     list_find (fun c => id c = cardId) (hand (getSide (players g) a))
       = Some (handIndex, card) /\
     piles (getSide (players g) t) !! p = Some targetPile /\
     (ok (validate card (cards targetPile) a t) = false \/
      exists msg, resolveInsertion card (cards targetPile) tvi = inl msg)) ->
  exists g',
    placeCard validate now a t cardId p tvi g = Some g' /\
    sameButMessage g g' /\
    (gameOver g = true \/
     list_find (fun c => id c = cardId) (hand (getSide (players g) a)) = None ->
     g' = g) /\
    (gameOver g = false ->
     is_Some (list_find (fun c => id c = cardId)
                (hand (getSide (players g) a))) ->
     exists text, message g' = Some text /\ text <> "").
Proof.
  unfold placeCard. intros Hrej.
  destruct (gameOver g) eqn:Hover.
  { exists g. split_and!; [done|apply sameButMessage_refl|done|done]. }
  destruct Hrej as [?|[Hnone|(i & card & pile & Hfind & Hpile & Hfail)]];
    [done| |].
  { rewrite Hnone. exists g.
    split_and!; [done|apply sameButMessage_refl|done|]. by intros _ [? ?]. }
  rewrite Hfind, Hpile.
  destruct (ok (validate card (cards pile) a t)) eqn:Hok; simpl.
  - destruct Hfail as [?|[msg Hres]]; [done|]. rewrite Hres.
    eexists. split_and!; [done|apply withMessage_same| |].
    + intros [?|?]; congruence.
    + intros _ _. exists msg. split; [done|].
      by eapply resolveInsertion_message.
  - eexists. split_and!; [done|apply withMessage_same| |].
    + intros [?|?]; congruence.
    + intros _ _. eexists. split; [done|].
      destruct (reason _) as [r|]; [|done]. by case_bool_decide.
Qed.

(** Every call that returns a state either commits or keeps every field
    but [message]. *)
Lemma placeCard_outcome now a t cardId p tvi g g' :
  placeCard validate now a t cardId p tvi g = Some g' ->
  sameButMessage g g' \/
  (moveCount g' = moveCount g + 1 /\
   length (moveLog g') = S (length (moveLog g)) /\
   turn g' = opponentOf a).
Proof.
  unfold placeCard. intros Hrun.
  repeat (case_match; simplify_eq; simpl;
          try (by left; first [apply sameButMessage_refl
                              |apply withMessage_same])).
  right. split_and!; [done| |done]. rewrite length_app. simpl. lia.
Qed.

(** C10: a face card played on a non-empty pile with no target index is
    never committed: the call returns a state that differs from the prior
    one at most in [message], and once the validator has accepted the card
    the message asks for a specific target card. *)
Theorem face_card_without_target_rejected now a t cardId p g targetPile :
  piles (getSide (players g) t) !! p = Some targetPile ->
  cards targetPile <> [] ->
  (forall handIndex card,
     list_find (fun c => id c = cardId) (hand (getSide (players g) a))
       = Some (handIndex, card) -> isFaceCard card = true) ->
  exists g',
    placeCard validate now a t cardId p None g = Some g' /\
    sameButMessage g g' /\
    (gameOver g = false ->
     forall handIndex card,
       list_find (fun c => id c = cardId) (hand (getSide (players g) a))
         = Some (handIndex, card) ->
       ok (validate card (cards targetPile) a t) = true ->
       g' = withMessage g
              (Some "Choose a specific card to place J/Q/K onto.")).
Proof.
  intros Hpile Hne Hface. unfold placeCard.
  destruct (gameOver g) eqn:Hover.
  { exists g. split_and!; [done|apply sameButMessage_refl|done]. }
  destruct (list_find _ _) as [[i card]|] eqn:Hfind.
  2:{ exists g. split_and!; [done|apply sameButMessage_refl|done]. }
  rewrite Hpile. specialize (Hface i card eq_refl).
  rewrite isFaceCard_not_numeric in Hface. apply negb_true_iff in Hface.
  destruct (ok (validate card (cards targetPile) a t)) eqn:Hok; simpl.
  - unfold resolveInsertion. rewrite Hface.
    rewrite bool_decide_eq_true_2
      by (destruct (cards targetPile); [done|simpl; lia]).
    eexists. split_and!; [done|apply withMessage_same|].
    intros _ ?? [= <- <-] _. done.
  - eexists. split_and!; [done|apply withMessage_same|].
    intros _ ?? [= <- <-] ?. congruence.
Qed.

(** C5: a Jack is never accepted against an empty pile.  The validator
    rejects a Jack on an empty pile for every pair of sides, so a
    [placeCard] call that plays a Jack onto a pile with an empty card list
    is never committed: the state keeps every field but [message], and the
    pile stays empty. *)
Theorem jack_never_on_empty_pile now a t cardId p tvi g targetPile :
  piles (getSide (players g) t) !! p = Some targetPile ->
  cards targetPile = [] ->
  (forall handIndex card,
     list_find (fun c => id c = cardId) (hand (getSide (players g) a))
       = Some (handIndex, card) -> rank card = RJ) ->
  (forall jack actorSide targetSide, rank jack = RJ ->
     ok (Rules.canPlaceCardOnTargetWithReason jack [] actorSide targetSide)
     = false) /\
  exists g',
    placeCard Rules.canPlaceCardOnTargetWithReason now a t cardId p tvi g
      = Some g' /\
    sameButMessage g g' /\
    piles (getSide (players g') t) !! p = Some targetPile.
Proof.
  intros Hpile Hempty Hjack.
  assert (Hval : forall jack actorSide targetSide, rank jack = RJ ->
            ok (Rules.canPlaceCardOnTargetWithReason jack [] actorSide
                  targetSide) = false).
  { intros jack x y Hj. unfold Rules.canPlaceCardOnTargetWithReason.
    unfold isFaceCard, isNumericOrAce. rewrite Hj. simpl.
    by case_bool_decide. }
  split; [exact Hval|]. unfold placeCard.
  destruct (gameOver g) eqn:Hover.
  { exists g. split_and!; [done|apply sameButMessage_refl|done]. }
  destruct (list_find _ _) as [[i card]|] eqn:Hfind.
  2:{ exists g. split_and!; [done|apply sameButMessage_refl|done]. }
  rewrite Hpile, Hempty, (Hval card a t (Hjack i card eq_refl)). simpl.
  eexists. split_and!; [done|apply withMessage_same|done].
Qed.

Variable canPlace : Card -> list Card -> Side -> Side -> bool.

(** C9: [placeCard] does not consult [turn] when it decides acceptance.
    When the game is not over, the actor holds the card and the validator
    and the target checks pass, the move is committed whatever [turn]
    holds, also when it is not the actor's turn: the card leaves the
    actor's hand, the target pile takes the new raw list, the actor draws
    the front card of the deck, the turn passes to the opponent of the
    actor, the move count grows by 1 and one entry is appended to the log.
    The only trace of [turn] in the result is the field [prevTurn] of that
    entry.  The turn is enforced outside: when the payload does not name
    the side whose turn it is, each of the four drop handlers returns
    without calling [placeCard] and both drop hints answer false, and the
    AI timer callback leaves the state alone when it is not the AI's
    turn. *)
Theorem placeCard_ignores_turn now a t cardId p tvi g handIndex card
    targetPile newRaw :
  gameOver g = false ->
  list_find (fun c => id c = cardId) (hand (getSide (players g) a))
    = Some (handIndex, card) ->
  piles (getSide (players g) t) !! p = Some targetPile ->
  ok (validate card (cards targetPile) a t) = true ->
  resolveInsertion card (cards targetPile) tvi = inr newRaw ->
  (forall x : Side, exists gx,
     placeCard validate now a t cardId p tvi (withTurn g x) = Some gx /\
     hand (getSide (players gx) a)
       = delete handIndex (hand (getSide (players g) a))
         ++ option_list (head (deck g)) /\
     piles (getSide (players gx) t)
       = <[p := {| cards := newRaw |}]> (piles (getSide (players g) t)) /\
     (a <> t ->
        hand (getSide (players gx) t) = hand (getSide (players g) t) /\
        piles (getSide (players gx) a) = piles (getSide (players g) a)) /\
     deck gx = tail (deck g) /\
     turn gx = opponentOf a /\
     moveCount gx = moveCount g + 1 /\
     moveLog gx
       = moveLog g
         ++ [ {| actor := a; target := t; cardRank := rank card;
                 pileIndex := p; targetVisibleIndex := tvi;
                 aiEnabledAtMove := aiEnabled g; prevTurn := x;
                 nextTurn := opponentOf a; time := now;
                 pileBeforeSize := None |} ] /\
     message gx = None /\
     aiEnabled gx = aiEnabled g /\ gameOver gx = false /\
     winner gx = winner g) /\
  (forall game targetSide pileIndex targetVisibleIndex0 payload,
     parseSide (owner payload) <> Some (turn game) ->
     onDropToPlayerPileContainer validate now pileIndex (Some payload) game
       = Some game /\
     onDropToAiPileContainer validate now pileIndex (Some payload) game
       = Some game /\
     onDropToPlayerPileCard validate now pileIndex targetVisibleIndex0
       (Some payload) game = Some game /\
     onDropToAiPileCard validate now pileIndex targetVisibleIndex0
       (Some payload) game = Some game /\
     canDropOnTargetPileContainer canPlace game targetSide pileIndex
       (Some payload) = Some false /\
     canDropOnTargetPileCard canPlace game targetSide pileIndex
       targetVisibleIndex0 (Some payload) = Some false) /\
  (forall localToken currentToken scheduledMoveCount rnd game,
     turn game <> ai ->
     aiTimerCallback validate canPlace localToken currentToken
       scheduledMoveCount rnd now game = Some game).
Proof.
  intros Hover Hfind Hpile Hok Hres. split_and!.
  - intros x.
    destruct (placeCard_accepted now a t cardId p tvi (withTurn g x)
                handIndex card targetPile newRaw Hover Hfind Hpile Hok Hres)
      as (gx & Hrun & Hrest).
    exists gx. split; [exact Hrun|exact Hrest].
  - intros game targetSide pileIndex targetVisibleIndex0 payload Hturn.
    assert (Hcont : forall side,
              onDropToPileContainer validate now side pileIndex
                (Some payload) game = Some game).
    { intros side. unfold onDropToPileContainer.
      destruct (gameOver game); [done|].
      case_bool_decide; [done|].
      destruct (parseSide (owner payload)) as [actor|]; [|done].
      rewrite bool_decide_eq_true_2; [done|congruence]. }
    assert (Hcard : forall side,
              onDropToPileCard validate now side pileIndex
                targetVisibleIndex0 (Some payload) game = Some game).
    { intros side. unfold onDropToPileCard.
      destruct (gameOver game); [done|].
      case_bool_decide; [done|].
      destruct (parseSide (owner payload)) as [actor|]; [|done].
      rewrite bool_decide_eq_true_2; [done|congruence]. }
    split_and!.
    + apply Hcont.
    + apply Hcont.
    + apply Hcard.
    + apply Hcard.
    + unfold canDropOnTargetPileContainer.
      case_bool_decide; [done|].
      destruct (parseSide (owner payload)) as [actor|]; [|done].
      rewrite bool_decide_eq_true_2; [done|congruence].
    + unfold canDropOnTargetPileCard.
      case_bool_decide; [done|].
      destruct (parseSide (owner payload)) as [actor|]; [|done].
      rewrite bool_decide_eq_true_2; [done|congruence].
  - intros localToken currentToken scheduledMoveCount rnd game Hturn.
    unfold aiTimerCallback. rewrite (bool_decide_eq_true_2 _ Hturn).
    by rewrite !orb_true_r.
Qed.

End Reducer.

(* ===================================================================== *)
(** ** End condition *)
(* ===================================================================== *)

Section EndCondition.

Variable totalsOf : list Pile -> Totals.

Implicit Types (g : GameState) (T : Totals).



End EndCondition.

(* ===================================================================== *)
(** ** The AI turn *)
(* ===================================================================== *)

Section AiTurn.

Variable validate : Card -> list Card -> Side -> Side -> Validation.
Variable canPlace : Card -> list Card -> Side -> Side -> bool.

Implicit Types (g : GameState) (card : Card).

(** A card the probe refuses on every pile contributes no candidate. *)
Lemma cardMoves_refused g card a0 a1 a2 h0 h1 h2 :
  piles (ofAi (players g)) = [a0; a1; a2] ->
  piles (ofPlayer (players g)) = [h0; h1; h2] ->
  (forall pile, pile ∈ [a0; a1; a2] ->
     canPlace card (cards pile) ai ai = false) ->
  (forall pile, pile ∈ [h0; h1; h2] ->
     canPlace card (cards pile) ai player = false) ->
  cardMoves canPlace g card = Some [].
Proof.
  intros Hai Hhuman Hown Hopp.
  unfold cardMoves, ownPileMoves, opponentPileMoves.
  rewrite Hai, Hhuman. simpl.
  rewrite !Hown, !Hopp by (repeat first [apply list_elem_of_here
                                        |apply list_elem_of_further]).
  done.
Qed.

(** When the probe refuses every card of the AI on every pile, the
    enumeration ends with no candidate. *)
Lemma aiMoves_nothing_legal g a0 a1 a2 h0 h1 h2 :
  piles (ofAi (players g)) = [a0; a1; a2] ->
  piles (ofPlayer (players g)) = [h0; h1; h2] ->
  (forall card pile, card ∈ hand (ofAi (players g)) ->
     pile ∈ [a0; a1; a2] -> canPlace card (cards pile) ai ai = false) ->
  (forall card pile, card ∈ hand (ofAi (players g)) ->
     pile ∈ [h0; h1; h2] -> canPlace card (cards pile) ai player = false) ->
  aiMoves canPlace g = Some [].
Proof.
  intros Hai Hhuman Hown Hopp. unfold aiMoves.
  assert (Hcards : forall card, card ∈ hand (ofAi (players g)) ->
            cardMoves canPlace g card = Some []).
  { intros card Hc. eapply cardMoves_refused; eauto. }
  clear Hown Hopp.
  assert (Hall : mapM (cardMoves canPlace g) (hand (ofAi (players g)))
                 = Some (replicate (length (hand (ofAi (players g)))) [])).
  { apply mapM_Some_2.
    induction (hand (ofAi (players g))) as [|card rest IH]; simpl;
      constructor.
    - apply Hcards, list_elem_of_here.
    - apply IH. intros card' Hc. by apply Hcards, list_elem_of_further. }
  rewrite Hall. simpl. f_equal. clear Hall Hcards.
  induction (length (hand (ofAi (players g)))) as [|n IH]; [done|].
  simpl. exact IH.
Qed.

(** C7: when the AI timer fires on the AI's turn (AI enabled, game not
    over, token and move count still current) and the enumeration finds no
    candidate move, the resulting state differs from the prior one only in
    [turn], set to the human player, and [message]: nothing is drawn, no
    entry is logged, and move count, hands, piles and deck are unchanged. *)
Theorem ai_skips_without_moves localToken scheduledMoveCount rnd now g :
  aiEnabled g = true ->
  gameOver g = false ->
  turn g = ai ->
  moveCount g = scheduledMoveCount ->
  aiMoves canPlace g = Some [] ->
  exists g',
    aiTimerCallback validate canPlace localToken localToken
      scheduledMoveCount rnd now g = Some g' /\
    g' = withTurnMessage g player (Some "Opponent skipped (no valid moves).") /\
    turn g' = player /\
    deck g' = deck g /\ players g' = players g /\
    moveCount g' = moveCount g /\ moveLog g' = moveLog g /\
    aiEnabled g' = aiEnabled g /\ gameOver g' = gameOver g /\
    winner g' = winner g.
Proof.
  intros Hen Hover Hturn Hcount Hmoves. unfold aiTimerCallback.
  rewrite Hen, Hover, Hturn, Hcount, Hmoves. simpl.
  rewrite !bool_decide_eq_false_2 by (by intros ?). simpl.
  eexists. split_and!; done.
Qed.

End AiTurn.

(* ===================================================================== *)
(** ** The self-check *)
(* ===================================================================== *)

Section SelfCheck.

Import Invariants.

Implicit Types (log : list MoveLogEntry) (st : Progress).

(** On entries that carry no [pileBeforeSize] the Jack loop never fires. *)
Lemma jackLoop_silent log : forall i st,
  Forall (fun m => pileBeforeSize m = None) log -> jackLoop i log st = st.
Proof.
  induction log as [|m log IH]; intros i st Hall; [done|].
  apply Forall_cons in Hall as [Hm Hall]. simpl. rewrite Hm.
  rewrite (bool_decide_eq_false_2 (None = Some 0)) by done.
  rewrite andb_false_r. by apply IH.
Qed.

(** [placeCard] never records [pileBeforeSize]. *)
Lemma placeCard_log validate now a t cardId p tvi g g' :
  placeCard validate now a t cardId p tvi g = Some g' ->
  Forall (fun m => pileBeforeSize m = None) (moveLog g) ->
  Forall (fun m => pileBeforeSize m = None) (moveLog g').
Proof.
  unfold placeCard. intros Hrun Hall.
  repeat (case_match; simplify_eq; simpl; try done).
  apply Forall_app. split; [done|]. by repeat constructor.
Qed.

Lemma runInvariants_moveCount g :
  reportMoveCount (runInvariants g) = Z.of_nat (length (moveLog g)).
Proof. done. Qed.

Lemma alternationLoop_cons i prev curr rest st :
  alternationLoop i (prev :: curr :: rest) st
  = if bool_decide (actor prev = actor curr)
    then push (TurnAlternation (i - 1) i (actor prev)) (tick st)
    else alternationLoop (i + 1) (curr :: rest) (tick st).
Proof. done. Qed.

(** Each check only appends to [errors]. *)
Lemma alternationLoop_errors log : forall i st,
  errors (alternationLoop i log st)
  = errors st ++ errors (alternationLoop i log blank).
Proof.
  induction log as [|prev [|curr rest] IH]; intros i st;
    try (by simpl; rewrite app_nil_r).
  rewrite !alternationLoop_cons.
  case_bool_decide; [done|].
  rewrite (IH (i + 1) (tick st)), (IH (i + 1) (tick blank)). done.
Qed.

Lemma jackLoop_errors log : forall i st,
  errors (jackLoop i log st) = errors st ++ errors (jackLoop i log blank).
Proof.
  induction log as [|m rest IH]; intros i st; simpl;
    [by rewrite app_nil_r|].
  destruct (_ && _); simpl; [done|]. apply IH.
Qed.

Lemma opponentLoop_errors log : forall i st,
  errors (opponentLoop i log st)
  = errors st ++ errors (opponentLoop i log blank).
Proof.
  induction log as [|m rest IH]; intros i st; simpl;
    [by rewrite app_nil_r|].
  case_bool_decide; simpl; [|apply IH].
  destruct (negb _); simpl; [done|].
  rewrite (IH (i + 1) (tick st)), (IH (i + 1) (tick blank)). done.
Qed.

Lemma turnCheck_errors g log st :
  errors (turnCheck g log st) = errors st ++ errors (turnCheck g log blank).
Proof.
  unfold turnCheck. destruct (_ && _); [|by rewrite app_nil_r].
  destruct (last log); [|by rewrite app_nil_r].
  case_bool_decide; simpl; [done|by rewrite app_nil_r].
Qed.

Lemma deckCheck_errors g st : errors (deckCheck g st) = errors st.
Proof. unfold deckCheck. by rewrite bool_decide_eq_false_2 by lia. Qed.

(** The errors of a report, check by check. *)
Lemma runInvariants_errors g :
  reportErrors (runInvariants g)
  = errors (alternationLoop 1 (moveLog g) blank)
    ++ errors (turnCheck g (moveLog g) blank)
    ++ errors (jackLoop 0 (moveLog g) blank)
    ++ errors (opponentLoop 0 (moveLog g) blank).
Proof.
  unfold runInvariants. simpl.
  rewrite deckCheck_errors, opponentLoop_errors, jackLoop_errors,
    turnCheck_errors. by rewrite <- !app_assoc.
Qed.

(** Check 1 reports exactly a repeated actor. *)
Lemma alternationLoop_spec log : forall i,
  Forall (fun e => checkOf e = 1%nat) (errors (alternationLoop i log blank)) /\
  (errors (alternationLoop i log blank) <> [] <-> sameActorTwice log).
Proof.
  induction log as [|prev [|curr rest] IH]; intros i.
  - split; [done|]. split; [done|]. by intros (j & e1 & e2 & ? & _).
  - split; [done|]. split; [done|].
    intros (j & e1 & e2 & H1 & H2 & _). by destruct j.
  - rewrite alternationLoop_cons. case_bool_decide as Hsame.
    + split; [by repeat constructor|]. split; [|done].
      intros _. exists 0%nat, prev, curr. done.
    + rewrite alternationLoop_errors. cbn [tick blank errors app].
      destruct (IH (i + 1)) as [Hk Hiff]. split; [done|].
      rewrite Hiff. split.
      * intros (j & e1 & e2 & H1 & H2 & Heq). by exists (S j), e1, e2.
      * intros (j & e1 & e2 & H1 & H2 & Heq). destruct j as [|j].
        { simpl in *. congruence. }
        by exists j, e1, e2.
Qed.

(** Check 2 reports exactly a turn out of step with the last entry. *)
Lemma turnCheck_spec g :
  Forall (fun e => checkOf e = 2%nat) (errors (turnCheck g (moveLog g) blank))
  /\ (errors (turnCheck g (moveLog g) blank) <> [] <-> turnOutOfStep g).
Proof.
  unfold turnCheck, turnOutOfStep.
  destruct (gameOver g); simpl.
  { split; [done|]. split; [done|]. by intros [? _]. }
  destruct (last (moveLog g)) as [e|] eqn:Hlast.
  2:{ rewrite Tauto.if_same. split; [done|]. split; [done|].
      by intros (_ & ? & ? & _). }
  rewrite bool_decide_eq_true_2.
  2:{ apply last_Some in Hlast as [l' ->]. rewrite length_app. simpl. lia. }
  assert ((if bool_decide (actor e = player) then ai else player)
          = opponentOf (actor e)) as -> by done.
  case_bool_decide as Hturn; simpl.
  - split; [by repeat constructor|]. split; [|done]. intros _.
    split; [done|]. by exists e.
  - split; [done|]. split; [done|]. intros (_ & e' & [= <-] & ?). done.
Qed.

(** Check 3 reports exactly a Jack with a recorded [pileBeforeSize] of 0. *)
Lemma jackLoop_spec log : forall i,
  Forall (fun e => checkOf e = 3%nat) (errors (jackLoop i log blank)) /\
  (errors (jackLoop i log blank) <> [] <-> recordedJackOnEmpty log).
Proof.
  induction log as [|m rest IH]; intros i; simpl.
  - split; [done|]. split; [done|]. intros (m & Hm & _).
    by apply elem_of_nil in Hm.
  - destruct (bool_decide (cardRank m = RJ)
              && bool_decide (pileBeforeSize m = Some 0)) eqn:Hhit; simpl.
    + apply andb_true_iff in Hhit as [H1 H2].
      apply bool_decide_eq_true in H1, H2.
      split; [by repeat constructor|]. split; [|done]. intros _.
      exists m. split; [apply elem_of_cons; by left|done].
    + destruct (IH (i + 1)) as [Hk Hiff]. split; [done|]. rewrite Hiff.
      split.
      * intros (m' & Hin & ?). exists m'.
        split; [apply elem_of_cons; by right|done].
      * intros (m' & Hin & Hj & Hs).
        apply elem_of_cons in Hin as [->|Hin]; [|by exists m'].
        rewrite !bool_decide_eq_true_2 in Hhit by done. done.
Qed.

(** Check 4 reports exactly a numeric/Ace card on the other side's pile. *)
Lemma opponentLoop_spec log : forall i,
  Forall (fun e => checkOf e = 4%nat) (errors (opponentLoop i log blank)) /\
  (errors (opponentLoop i log blank) <> [] <-> numericOnOpponent log).
Proof.
  assert (Hface : forall r, isFaceRank r = false
                    <-> r <> RJ /\ r <> RQ /\ r <> RK).
  { intros r. unfold isFaceRank. destruct r; simpl; intuition congruence. }
  induction log as [|m rest IH]; intros i; simpl.
  - split; [done|]. split; [done|]. intros (m & Hm & _).
    by apply elem_of_nil in Hm.
  - destruct (IH (i + 1)) as [Hk Hiff].
    assert (Hrest : numericOnOpponent rest -> numericOnOpponent (m :: rest)).
    { intros (m' & Hin & ?). exists m'.
      split; [apply elem_of_cons; by right|done]. }
    case_bool_decide as Hopp; simpl.
    + destruct (isFaceRank (cardRank m)) eqn:Hf; simpl.
      * rewrite opponentLoop_errors. simpl. split; [done|]. rewrite Hiff.
        split; [done|]. intros (m' & Hin & Ho & Hr).
        apply elem_of_cons in Hin as [->|Hin]; [|by exists m'].
        apply Hface in Hr. congruence.
      * split; [by repeat constructor|]. split; [|done]. intros _.
        exists m. split; [apply elem_of_cons; by left|].
        split; [done|]. by apply Hface.
    + split; [done|]. rewrite Hiff. split; [done|].
      intros (m' & Hin & Ho & Hr).
      apply elem_of_cons in Hin as [->|Hin]; [done|by exists m'].
Qed.

Lemma part_reports (l : list InvariantError) (k n : nat) :
  Forall (fun e => checkOf e = n) l ->
  (exists e, e ∈ l /\ checkOf e = k) <-> k = n /\ l <> [].
Proof.
  intros Hall. split.
  - intros (e & Hin & Hk). rewrite Forall_forall in Hall.
    split; [by rewrite <- Hk, (Hall e Hin)|]. intros ->.
    by apply elem_of_nil in Hin.
  - intros [-> Hne]. destruct l as [|e l]; [done|]. exists e.
    apply Forall_cons in Hall as [He _].
    split; [apply elem_of_cons; by left|done].
Qed.

(** What a report holds: the move count is the length of the log, and an
    error of a check is present exactly when its condition fails; check 3
    looks at the recorded [pileBeforeSize] only, and check 5 never fires. *)
Lemma runInvariants_report g :
  let reported k := exists e, e ∈ reportErrors (runInvariants g)
                              /\ checkOf e = k in
  reportMoveCount (runInvariants g) = Z.of_nat (length (moveLog g)) /\
  (reported 1%nat <-> sameActorTwice (moveLog g)) /\
  (reported 2%nat <-> turnOutOfStep g) /\
  (reported 3%nat <-> recordedJackOnEmpty (moveLog g)) /\
  (reported 4%nat <-> numericOnOpponent (moveLog g)) /\
  ~ reported 5%nat.
Proof.
  intros reported. split; [done|]. subst reported. cbv beta.
  rewrite runInvariants_errors.
  destruct (alternationLoop_spec (moveLog g) 1) as [H1 <-].
  destruct (turnCheck_spec g) as [H2 <-].
  destruct (jackLoop_spec (moveLog g) 0) as [H3 <-].
  destruct (opponentLoop_spec (moveLog g) 0) as [H4 <-].
  pose proof (fun k => part_reports _ k _ H1) as P1.
  pose proof (fun k => part_reports _ k _ H2) as P2.
  pose proof (fun k => part_reports _ k _ H3) as P3.
  pose proof (fun k => part_reports _ k _ H4) as P4.
  assert (Hsplit : forall k,
    (exists e, e ∈ errors (alternationLoop 1 (moveLog g) blank)
                   ++ errors (turnCheck g (moveLog g) blank)
                   ++ errors (jackLoop 0 (moveLog g) blank)
                   ++ errors (opponentLoop 0 (moveLog g) blank)
               /\ checkOf e = k)
    <-> (k = 1%nat /\ errors (alternationLoop 1 (moveLog g) blank) <> [])
        \/ (k = 2%nat /\ errors (turnCheck g (moveLog g) blank) <> [])
        \/ (k = 3%nat /\ errors (jackLoop 0 (moveLog g) blank) <> [])
        \/ (k = 4%nat /\ errors (opponentLoop 0 (moveLog g) blank) <> [])).
  { intros k. rewrite <- P1, <- P2, <- P3, <- P4. split.
    - intros (e & Hin & Hk). rewrite !elem_of_app in Hin.
      destruct Hin as [?|[?|[?|?]]]; eauto 10.
    - intros [(e & ? & ?)|[(e & ? & ?)|[(e & ? & ?)|(e & ? & ?)]]];
        exists e; rewrite !elem_of_app; eauto 10. }
  rewrite !Hsplit. split_and!; try (intuition congruence).
Qed.

(** C6: [runInvariants] cannot see a Jack played on an empty pile.  In the
    state after a Jack was committed as the very first move of a game, the
    logged Jack met an empty target pile, yet the report of two checked
    conditions over one move holds no error: check 3 compares a
    [pileBeforeSize] that the entries built by [placeCard] never carry. *)
Theorem runInvariants_misses_jack_on_empty :
  cardRank Samples.jackFirst = RJ /\
  moveLog Samples.jackOnEmpty = [Samples.jackFirst] /\
  pileSizeBefore (moveLog Samples.jackOnEmpty) 0 = 0%nat /\
  runInvariants Samples.jackOnEmpty
  = {| reportErrors := []; reportChecked := 2; reportMoveCount := 1 |}.
Proof. split_and!; reflexivity. Qed.

(** On the logs [placeCard] builds no Jack error is ever reported. *)
Lemma runInvariants_no_jack_error g :
  Forall (fun m => pileBeforeSize m = None) (moveLog g) ->
  ~ exists e, e ∈ reportErrors (runInvariants g) /\ checkOf e = 3%nat.
Proof.
  intros Hall Hrep.
  apply (proj1 (proj2 (proj2 (proj2 (runInvariants_report g))))) in Hrep.
  destruct Hrep as (m & Hin & _ & Hsize).
  rewrite Forall_forall in Hall. specialize (Hall m Hin). congruence.
Qed.

End SelfCheck.

(* ===================================================================== *)
(** ** Worked instances with the validator of game/rules.js *)
(* ===================================================================== *)

Section Instances.

Import Samples.

(** A 7 played from a fresh deal onto the empty first own pile. *)
Lemma placeCard_commits_witness :
  exists g',
    placeCard canPlaceCardOnTargetWithReason 0 player player "7S" 0 None
      (fresh [card "7S" R7; card "QS" RQ] [card "KS" RK] [card "9S" R9])
    = Some g' /\
    hand (ofPlayer (players g')) = [card "QS" RQ; card "9S" R9] /\
    deck g' = [] /\
    piles (ofPlayer (players g'))
      = [ {| cards := [card "7S" R7] |}; {| cards := [] |};
          {| cards := [] |} ] /\
    turn g' = ai /\ moveCount g' = 1 /\ length (moveLog g') = 1%nat.
Proof.
  destruct (placeCard_commits canPlaceCardOnTargetWithReason 0 player
              player "7S" 0 None
              (fresh [card "7S" R7; card "QS" RQ] [card "KS" RK]
                 [card "9S" R9])
              0%nat (card "7S" R7) {| cards := [] |} [card "7S" R7]
              eq_refl eq_refl eq_refl eq_refl eq_refl)
    as (g' & drawn & Hrun & Hhand & Hdeck & Hdrawn & Hpiles & _ & _ & _
        & Hturn & _ & Hlog & Hcount).
  exists g'. simpl in *.
  destruct drawn as [d|]; simpl in Hdeck.
  2:{ exfalso. by destruct (proj2 Hdrawn) as [? [=]]. }
  injection Hdeck as <- <-.
  split_and!; try done. by rewrite Hlog.
Defined.

(** C1 as stated fails: the game is not over, the human holds the Queen
    and the validator accepts it on the own pile that holds an Ace, yet
    without a target index [placeCard] commits nothing: the Queen stays in
    the hand, and pile, deck, turn, log and move count are as before. *)
Lemma placeCard_commits_counterexample :
  gameOver queenInHand = false /\
  list_find (fun c => id c = "QS")
    (hand (getSide (players queenInHand) player))
    = Some (0%nat, card "QS" RQ) /\
  ok (canPlaceCardOnTargetWithReason (card "QS" RQ) [card "AS" RA]
        player player) = true /\
  placeCard canPlaceCardOnTargetWithReason 0 player player "QS" 0 None
    queenInHand
  = Some (withMessage queenInHand
            (Some "Choose a specific card to place J/Q/K onto.")) /\
  ~ (exists g',
       placeCard canPlaceCardOnTargetWithReason 0 player player "QS" 0 None
         queenInHand = Some g' /\
       moveCount g' = moveCount queenInHand + 1).
Proof.
  split_and!; try reflexivity.
  intros (g' & Hrun & Hcount). vm_compute in Hrun.
  injection Hrun as <-. vm_compute in Hcount. discriminate.
Qed.

(** The Queen played without a target index onto the pile that holds an
    Ace is rejected with a message. *)
Lemma placeCard_rejects_witness :
  exists g',
    placeCard canPlaceCardOnTargetWithReason 0 player player "QS" 0 None
      queenInHand = Some g' /\
    sameButMessage queenInHand g' /\
    exists text, message g' = Some text /\ text <> "".
Proof.
  destruct (placeCard_rejects canPlaceCardOnTargetWithReason 0 player
              player "QS" 0 None queenInHand)
    as (g' & Hrun & Hsame & _ & Hmsg).
  - right. right. exists 0%nat, (card "QS" RQ), {| cards := [card "AS" RA] |}.
    split_and!; [reflexivity|reflexivity|]. right. by eexists.
  - exists g'. split_and!; [done|done|]. apply Hmsg; [reflexivity|by eexists].
Defined.

(** C4 as stated fails: a call on a finished game is rejected, and the
    state comes back with no rejection message attached. *)
Lemma placeCard_rejects_counterexample :
  gameOver finished = true /\
  placeCard canPlaceCardOnTargetWithReason 0 player player "QS" 0 None
    finished = Some finished /\
  message finished = None.
Proof. split_and!; reflexivity. Qed.

(** A Jack held by the human, played onto the empty second own pile. *)
Lemma jack_never_on_empty_pile_witness :
  exists g',
    placeCard canPlaceCardOnTargetWithReason 0 player player "JS" 1 None
      (fresh [card "JS" RJ] [card "KS" RK] []) = Some g' /\
    piles (ofPlayer (players g')) !! 1%nat = Some {| cards := [] |}.
Proof.
  destruct (jack_never_on_empty_pile 0 player player "JS" 1 None
              (fresh [card "JS" RJ] [card "KS" RK] []) {| cards := [] |}
              eq_refl eq_refl)
    as (_ & g' & Hrun & _ & Hpile).
  - intros i c. simpl. by intros [= <- <-].
  - by exists g'.
Defined.

(** The Queen of the human is committed although it is the AI's turn: it
    leaves the hand, lands on the pile after the Ace, and the human draws
    the front card of the deck. *)
Lemma placeCard_ignores_turn_witness :
  turn queenInHand = ai /\
  exists gx,
    placeCard canPlaceCardOnTargetWithReason 0 player player "QS" 0
      (Some 0) (withTurn queenInHand ai) = Some gx /\
    hand (ofPlayer (players gx))
      = delete 0%nat (hand (ofPlayer (players queenInHand)))
        ++ option_list (head (deck queenInHand)) /\
    piles (ofPlayer (players gx)) !! 0%nat
      = Some {| cards := [card "AS" RA; card "QS" RQ] |} /\
    moveCount gx = moveCount queenInHand + 1 /\
    turn gx = ai.
Proof.
  split; [reflexivity|].
  destruct (placeCard_ignores_turn canPlaceCardOnTargetWithReason
              canPlaceCardOnTarget 0 player player "QS" 0
              (Some 0) queenInHand 0%nat (card "QS" RQ)
              {| cards := [card "AS" RA] |}
              [card "AS" RA; card "QS" RQ]
              eq_refl eq_refl eq_refl eq_refl eq_refl) as (Hturn & _ & _).
  destruct (Hturn ai)
    as (gx & Hx & Hhand & Hpiles & _ & _ & Ht & Hcount & _).
  exists gx. split_and!; [exact Hx|exact Hhand| |exact Hcount|exact Ht].
  change (piles (getSide (players gx) player) !! 0%nat
          = Some {| cards := [card "AS" RA; card "QS" RQ] |}).
  rewrite Hpiles. reflexivity.
Defined.

(** The Queen without a target index on the pile that holds an Ace. *)
Lemma face_card_without_target_rejected_witness :
  exists g',
    placeCard canPlaceCardOnTargetWithReason 0 player player "QS" 0 None
      queenInHand = Some g' /\
    sameButMessage queenInHand g'.
Proof.
  destruct (face_card_without_target_rejected
              canPlaceCardOnTargetWithReason 0 player player
              "QS" 0 queenInHand {| cards := [card "AS" RA] |} eq_refl)
    as (g' & Hrun & Hsame & _).
  - done.
  - intros i c. simpl. by intros [= <- <-].
  - by exists g'.
Defined.

(** The AI holds one King and every pile is empty: the turn is skipped. *)
Lemma ai_skips_without_moves_witness :
  aiMoves canPlaceCardOnTarget aiStuck = Some [] /\
  aiTimerCallback canPlaceCardOnTargetWithReason
    canPlaceCardOnTarget 3 3 0 0 0 aiStuck
  = Some (withTurnMessage aiStuck player
            (Some "Opponent skipped (no valid moves).")).
Proof.
  split; [reflexivity|].
  destruct (ai_skips_without_moves canPlaceCardOnTargetWithReason
              canPlaceCardOnTarget 3 0 0%nat 0 aiStuck
              eq_refl eq_refl eq_refl eq_refl eq_refl)
    as (g' & Hrun & -> & _).
  exact Hrun.
Defined.


(** The scenario of the specification: Ace then 5 on an empty own pile
    give total 6 and direction ascending; a 3 is then rejected, pile and
    hand unchanged; a Queen on the pile flips the direction; after it a 2,
    less than 5, is accepted. *)
Example scenario_ace_five_queen :
  exists g2 g3 g4 g5,
    play "AS" None scenarioStart ≫= play "5S" None = Some g2 /\
    pileTotal (firstPile g2) = 6 /\
    direction (computeDirectionState (firstPile g2)) = Some ascending /\
    play "3S" None g2 = Some g3 /\
    sameButMessage g2 g3 /\ message g3 = Some "Invalid move." /\
    play "QS" (Some 1) g3 = Some g4 /\
    direction (computeDirectionState (firstPile g4)) = Some descending /\
    play "2S" None g4 = Some g5 /\
    firstPile g5 = [card "AS" RA; card "5S" R5; card "QS" RQ; card "2S" R2] /\
    hand (ofPlayer (players g5)) = [card "3S" R3] /\
    moveCount g5 = 4.
Proof.
  eexists _, _, _, _. split; [reflexivity|].
  split; [reflexivity|]. split; [reflexivity|].
  split; [reflexivity|]. split; [by unfold sameButMessage|].
  split; [reflexivity|]. split; [reflexivity|]. split; [reflexivity|].
  split; [reflexivity|]. split_and!; reflexivity.
Qed.

End Instances.

(* ===================================================================== *)
(** ** Further properties of the reducer *)
(* ===================================================================== *)

Section Insertion.

Implicit Types (card tc : Card) (pile newRaw : list Card).

Lemma ghosted_refl (l : list Card) : Forall2 ghosted l l.
Proof. apply Forall_Forall2_diag, Forall_forall. intros c _. by left. Qed.

Lemma spliceInsert_split pile z card :
  exists k, (k <= length pile)%nat /\
            spliceInsert pile z card = take k pile ++ card :: drop k pile.
Proof.
  unfold spliceInsert. eexists. split; [|reflexivity].
  case_bool_decide; lia.
Qed.

(** The insertion never drops, duplicates or reorders the cards of the
    pile, whatever the target index is. *)
Lemma resolveInsertion_split card pile tvi newRaw :
  resolveInsertion card pile tvi = inr newRaw ->
  exists k old,
    (k <= length pile)%nat /\ Forall2 ghosted pile old /\
    newRaw = take k old ++ card :: drop k old /\
    (rank card <> RJ -> old = pile).
Proof.
  unfold resolveInsertion. intros Hres.
  destruct (isNumericOrAce card).
  { simplify_eq. exists (length pile), pile.
    split_and!; [done|apply ghosted_refl| |done].
    by rewrite take_ge, drop_ge by lia. }
  destruct tvi as [z|].
  2:{ case_bool_decide as Hlen; [done|]. case_bool_decide; [done|].
      simplify_eq. destruct pile; [|simpl in Hlen; lia].
      exists 0%nat, []. split_and!; [done|constructor|done|done]. }
  destruct (bool_decide (rank card = RK) && _); [done|].
  destruct (spliceInsert_split pile (z + 1) card) as (k & Hk & Hsplice).
  case_bool_decide as Hj.
  2:{ simplify_eq. exists k, pile.
      split_and!; [done|apply ghosted_refl|done|done]. }
  destruct (at_index pile z) as [tc|] eqn:Hat.
  2:{ simplify_eq. exists k, pile.
      split_and!; [done|apply ghosted_refl|done|done]. }
  clear k Hk Hsplice. simplify_eq.
  unfold at_index in Hat. case_bool_decide as Hz; [done|].
  pose proof (lookup_lt_Some _ _ _ Hat) as Hlt.
  assert (Hsplice : spliceInsert pile (z + 1) card
                    = take (Z.to_nat z) pile
                      ++ tc :: card :: drop (S (Z.to_nat z)) pile).
  { rewrite <- (Z2Nat.id z) at 1 by lia. by apply spliceInsert_after. }
  rewrite Hsplice. set (n := Z.to_nat z) in *.
  exists (S n), (<[n := markRemoved tc]> pile).
  split_and!; [lia| | |done].
  - rewrite <- (list_insert_id pile n tc Hat) at 1.
    apply Forall2_insert; [apply ghosted_refl|by right].
  - rewrite insert_app_r_alt by (rewrite length_take; lia).
    rewrite length_take.
    replace (n - n `min` length pile)%nat with 0%nat by lia.
    rewrite take_insert_lt, drop_insert_lt by lia.
    rewrite (take_S_r _ _ _ Hat).
    rewrite insert_app_r_alt by (rewrite length_take; lia).
    rewrite length_take.
    replace (n - n `min` length pile)%nat with 0%nat by lia.
    simpl. by rewrite <- app_assoc.
Qed.

Lemma ghosted_ids (l l' : list Card) :
  Forall2 ghosted l l' -> id <$> l' = id <$> l.
Proof.
  induction 1 as [|c c' l l' Hc _ IH]; [done|].
  rewrite !fmap_cons. f_equal; [by destruct Hc as [->| ->]|exact IH].
Qed.

(** The ids of the new raw list are those of the pile plus the id of the
    played card. *)
Lemma resolveInsertion_ids card pile tvi newRaw :
  resolveInsertion card pile tvi = inr newRaw ->
  id <$> newRaw ≡ₚ id card :: (id <$> pile).
Proof.
  intros Hres.
  destruct (resolveInsertion_split _ _ _ _ Hres) as (k & old & _ & Hg & -> & _).
  rewrite fmap_app, fmap_cons, <- Permutation_middle, <- fmap_app.
  by rewrite take_drop, (ghosted_ids _ _ Hg).
Qed.

(** X1: whenever the insertion of [placeCard] succeeds, the new raw list is
    the old pile with the played card put in at one position: no card of
    the pile is dropped, duplicated or reordered, the pile grows by exactly
    one card, a card changes at most by being marked removed, and only a
    Jack marks anything.  This holds for every target index, in range or
    not. *)
Theorem insertion_keeps_pile card pile tvi newRaw :
  resolveInsertion card pile tvi = inr newRaw ->
  exists k old,
    (k <= length pile)%nat /\
    Forall2 ghosted pile old /\
    newRaw = take k old ++ card :: drop k old /\
    (rank card <> RJ -> old = pile) /\
    length newRaw = S (length pile) /\
    id <$> newRaw
    = take k (id <$> pile) ++ id card :: drop k (id <$> pile) /\
    (forall c, c ∈ pile -> removed c = true -> c ∈ newRaw).
Proof.
  intros Hres.
  destruct (resolveInsertion_split _ _ _ _ Hres) as (k & old & Hk & Hg & -> & Hj).
  pose proof (Forall2_length _ _ _ Hg) as Hlen.
  assert (Hids : id <$> old = id <$> pile).
  { clear -Hg. induction Hg as [|c c' l l' Hc _ IH]; [done|].
    rewrite !fmap_cons. f_equal; [by destruct Hc as [->| ->]|exact IH]. }
  exists k, old. split_and!; try done.
  - rewrite length_app. simpl. rewrite length_take, length_drop. lia.
  - rewrite fmap_app, fmap_cons, fmap_take, fmap_drop, Hids. done.
  - intros c Hin Hrem.
    assert (c ∈ old) as Hold.
    { clear -Hg Hin Hrem. induction Hg as [|x x' l l' Hx _ IH].
      - by apply elem_of_nil in Hin.
      - apply elem_of_cons in Hin as [->|Hin].
        + apply elem_of_cons. left. destruct Hx as [->| ->]; [done|].
          destruct x. simpl in *. by subst.
        + apply elem_of_cons. right. by apply IH. }
    rewrite <- (take_drop k old) in Hold.
    apply elem_of_app in Hold as [?|?]; apply elem_of_app;
      [by left|right; apply elem_of_cons; by right].
Qed.

(** X3: a Queen or Jack played with a target index that names no card of
    the pile is still inserted, and nothing is marked removed: an index at
    or past the end appends the card, the index -1 puts it in front of the
    pile, and an index further below zero counts from the end. *)
Theorem face_card_with_stray_target card pile z :
  isNumericOrAce card = false ->
  rank card <> RK ->
  z < 0 \/ Z.of_nat (length pile) <= z ->
  resolveInsertion card pile (Some z) = inr (spliceInsert pile (z + 1) card) /\
  (Z.of_nat (length pile) <= z ->
     spliceInsert pile (z + 1) card = pile ++ [card]) /\
  (z = -1 -> spliceInsert pile (z + 1) card = card :: pile) /\
  (z < -1 ->
     spliceInsert pile (z + 1) card
     = take (Z.to_nat (Z.of_nat (length pile) + z + 1)) pile
       ++ card :: drop (Z.to_nat (Z.of_nat (length pile) + z + 1)) pile).
Proof.
  intros Hn Hk Hz. split_and!.
  - unfold resolveInsertion. rewrite Hn.
    rewrite (bool_decide_eq_false_2 (rank card = RK)) by done. simpl.
    assert (at_index pile z = None) as ->.
    { unfold at_index. case_bool_decide; [done|].
      apply lookup_ge_None. lia. }
    by case_bool_decide.
  - intros Hge. unfold spliceInsert.
    rewrite bool_decide_eq_false_2 by lia.
    rewrite take_ge, drop_ge by lia. done.
  - intros ->. unfold spliceInsert.
    rewrite bool_decide_eq_false_2 by lia.
    replace (Z.to_nat ((-1 + 1) `min` Z.of_nat (length pile))) with 0%nat
      by lia.
    done.
  - intros Hlt. unfold spliceInsert.
    rewrite bool_decide_eq_true_2 by lia.
    destruct (decide (0 <= Z.of_nat (length pile) + (z + 1))).
    + by replace ((Z.of_nat (length pile) + (z + 1)) `max` 0)
        with (Z.of_nat (length pile) + z + 1) by lia.
    + replace (Z.to_nat ((Z.of_nat (length pile) + (z + 1)) `max` 0))
        with 0%nat by lia.
      by replace (Z.to_nat (Z.of_nat (length pile) + z + 1)) with 0%nat by lia.
Qed.

End Insertion.

Section Transitions.

Variable validate : Card -> list Card -> Side -> Side -> Validation.
Variable canPlace : Card -> list Card -> Side -> Side -> bool.

Implicit Types (g : GameState) (a t : Side) (card : Card).

(** A call that returns a state was rejected, or passed every check. *)
Lemma placeCard_cases now a t cardId p tvi g g' :
  placeCard validate now a t cardId p tvi g = Some g' ->
  sameButMessage g g' \/
  exists handIndex card targetPile newRaw,
    gameOver g = false /\
    list_find (fun c => id c = cardId) (hand (getSide (players g) a))
      = Some (handIndex, card) /\
    piles (getSide (players g) t) !! p = Some targetPile /\
    ok (validate card (cards targetPile) a t) = true /\
    resolveInsertion card (cards targetPile) tvi = inr newRaw.
Proof.
  unfold placeCard. intros Hrun.
  destruct (gameOver g) eqn:Hover.
  { simplify_eq. left. apply sameButMessage_refl. }
  destruct (list_find _ _) as [[i card]|] eqn:Hfind.
  2:{ simplify_eq. left. apply sameButMessage_refl. }
  destruct (piles _ !! p) as [pile|] eqn:Hpile; [|done].
  destruct (ok _) eqn:Hok; simpl in Hrun.
  2:{ simplify_eq. left. apply withMessage_same. }
  destruct (resolveInsertion _ _ _) as [msg|newRaw] eqn:Hres.
  { simplify_eq. left. apply withMessage_same. }
  right. by exists i, card, pile, newRaw.
Qed.

(** A call that returns a state either keeps everything but [message] or
    commits one move of the actor. *)
Lemma placeCard_moved now a t cardId p tvi g g' :
  placeCard validate now a t cardId p tvi g = Some g' ->
  sameButMessage g g' \/ committedBy a g g'.
Proof.
  intros Hrun.
  destruct (placeCard_cases _ _ _ _ _ _ _ _ Hrun)
    as [?|(i & card & pile & newRaw & Hover & Hfind & Hpile & Hok & Hres)];
    [by left|right].
  destruct (placeCard_accepted validate now a t cardId p tvi g i card pile
              newRaw Hover Hfind Hpile Hok Hres)
    as (g'' & Hrun' & Hhand & Hpiles & _ & Hdeck & Hturn & Hcount & Hlog & _
        & Hai & Hov & Hwin).
  assert (g'' = g') as -> by congruence.
  eexists. split_and!; try done.
  exists i, card, pile, newRaw. simpl.
  apply list_find_Some in Hfind as (Hat & _ & _).
  split_and!; done.
Qed.

Lemma sameButMessage_not_committed a g g' :
  sameButMessage g g' -> committedBy a g g' -> False.
Proof.
  intros (_ & _ & _ & _ & _ & _ & Hcount & _) (e & _ & _ & _ & _ & _ & _ & Hc & _).
  lia.
Qed.

(** X2: a King is committed only onto a live numeric/Ace card: when a
    [placeCard] call that plays a King changes the move count, the target
    index names a card of the pile, that card is a numeric/Ace card not
    marked removed, and the King ends up right after it. *)
Theorem king_commit_needs_live_target now a t cardId p tvi g g' handIndex
    card targetPile :
  placeCard validate now a t cardId p tvi g = Some g' ->
  moveCount g' <> moveCount g ->
  list_find (fun c => id c = cardId) (hand (getSide (players g) a))
    = Some (handIndex, card) ->
  rank card = RK ->
  piles (getSide (players g) t) !! p = Some targetPile ->
  exists (n : nat) tc,
    tvi = Some (Z.of_nat n) /\
    cards targetPile !! n = Some tc /\
    isNumericOrAce tc = true /\ removed tc = false /\
    piles (getSide (players g') t) !! p
    = Some {| cards := take n (cards targetPile)
                       ++ tc :: card :: drop (S n) (cards targetPile) |}.
Proof.
  intros Hrun Hcount Hfind Hk Hpile.
  destruct (placeCard_cases _ _ _ _ _ _ _ _ Hrun)
    as [Hsame|(i & card' & pile' & newRaw & Hover & Hfind' & Hpile' & Hok
               & Hres)].
  { destruct Hcount. apply Hsame. }
  assert (i = handIndex /\ card' = card) as [-> ->]
    by (split; congruence).
  assert (pile' = targetPile) as -> by congruence.
  assert (Hnum : isNumericOrAce card = false)
    by (unfold isNumericOrAce; by rewrite Hk).
  destruct (placeCard_accepted validate now a t cardId p tvi g handIndex
              card targetPile newRaw Hover Hfind Hpile Hok Hres)
    as (g'' & Hrun' & _ & Hpiles & _).
  assert (g'' = g') as -> by congruence.
  assert (Htarget : exists (n : nat) tc, tvi = Some (Z.of_nat n) /\
            cards targetPile !! n = Some tc).
  { revert Hres. unfold resolveInsertion. rewrite Hnum.
    rewrite (bool_decide_eq_true_2 (rank card = RK)) by done.
    destruct tvi as [z|]; [|by case_bool_decide].
    unfold at_index. case_bool_decide as Hz; [done|].
    destruct (cards targetPile !! Z.to_nat z) as [tc|] eqn:Hat; [|done].
    intros _. exists (Z.to_nat z), tc. split; [|done]. f_equal. lia. }
  destruct Htarget as (n & tc & -> & Hat).
  destruct (resolveInsertion_shape _ _ _ _ Hres) as (_ & _ & Hsome).
  destruct (Hsome Hnum n tc eq_refl Hat) as [Hlive ->].
  destruct (Hlive Hk) as [Hn Hr].
  exists n, tc. split_and!; try done.
  rewrite Hpiles, list_lookup_insert_eq by (by eapply lookup_lt_Some).
  rewrite bool_decide_eq_false_2 by congruence. done.
Qed.

(** X5: [placeCard] raises exactly when the game is not over, the actor
    holds the card and the target side has no pile at the index; and every
    call that returns keeps the number of piles of both sides. *)
Theorem placeCard_raises_iff now a t cardId p tvi g :
  (placeCard validate now a t cardId p tvi g = None <->
   gameOver g = false /\
   is_Some (list_find (fun c => id c = cardId)
              (hand (getSide (players g) a))) /\
   (length (piles (getSide (players g) t)) <= p)%nat) /\
  (forall g' s,
     placeCard validate now a t cardId p tvi g = Some g' ->
     length (piles (getSide (players g') s))
     = length (piles (getSide (players g) s))).
Proof.
  split.
  - unfold placeCard. destruct (gameOver g).
    { split; [done|]. by intros [? _]. }
    destruct (list_find _ _) as [[i card]|].
    2:{ split; [done|]. by intros (_ & [? ?] & _). }
    rewrite <- lookup_ge_None.
    destruct (piles _ !! p) as [pile|].
    2:{ split; [|done]. intros _. split_and!; [done|by eexists|done]. }
    split; [|by intros (_ & _ & ?)].
    destruct (ok _); simpl; [|done].
    destruct (resolveInsertion _ _ _); [done|].
    by destruct (drawOne _).
  - intros g' s Hrun.
    destruct (placeCard_cases _ _ _ _ _ _ _ _ Hrun)
      as [Hsame|(i & card & pile & newRaw & Hover & Hfind & Hpile & Hok
                 & Hres)].
    { destruct Hsame as (_ & -> & _). done. }
    destruct (placeCard_accepted validate now a t cardId p tvi g i card pile
                newRaw Hover Hfind Hpile Hok Hres)
      as (g'' & Hrun' & _ & Hpiles & Hother & _).
    assert (g'' = g') as -> by congruence.
    destruct (decide (s = t)) as [->|Hst].
    { by rewrite Hpiles, length_insert. }
    destruct (decide (a = t)) as [->|Hat].
    + revert Hrun'. unfold placeCard.
      rewrite Hover, Hfind, Hpile, Hok, Hres. simpl.
      destruct (drawOne _). intros [= <-].
      destruct s, t; simpl; congruence.
    + destruct (Hother Hat) as [_ Ha].
      destruct s, a, t; simpl in *; congruence.
Qed.

Lemma pile_ids_insert (ps : list Pile) (p : nat) (pile : Pile)
    (newRaw : list Card) (x : string) :
  ps !! p = Some pile ->
  id <$> newRaw ≡ₚ x :: (id <$> cards pile) ->
  id <$> concat (cards <$> <[p := {| cards := newRaw |}]> ps)
  ≡ₚ x :: (id <$> concat (cards <$> ps)).
Proof.
  intros Hp Hperm. pose proof (lookup_lt_Some _ _ _ Hp) as Hlt.
  rewrite insert_take_drop by done.
  rewrite <- (take_drop_middle ps p pile Hp) at 3.
  rewrite !fmap_app, !fmap_cons, !concat_app, !concat_cons, !fmap_app.
  simpl. rewrite Hperm. solve_Permutation.
Qed.

(** X4: [placeCard] conserves the cards of the game: whatever the call
    does, the ids of the cards in the deck, the two hands and all piles
    after it are a permutation of those before it; no card is lost,
    duplicated or created. *)
Theorem placeCard_conserves_cards now a t cardId p tvi g g' :
  placeCard validate now a t cardId p tvi g = Some g' ->
  cardIds g' ≡ₚ cardIds g.
Proof.
  intros Hrun.
  destruct (placeCard_cases _ _ _ _ _ _ _ _ Hrun)
    as [Hsame|(i & card & pile & newRaw & Hover & Hfind & Hpile & Hok
               & Hres)].
  { destruct Hsame as (Hd & Hp & _). unfold cardIds. by rewrite Hd, Hp. }
  pose proof (proj1 (list_find_Some _ _ _ _) Hfind) as (Hhand & _ & _).
  pose proof (fmap_Permutation id _ _ (delete_Permutation _ _ _ Hhand))
    as Hdel.
  pose proof (pile_ids_insert _ _ _ _ _ Hpile
                (resolveInsertion_ids _ _ _ _ Hres)) as Hins.
  revert Hrun. unfold placeCard.
  rewrite Hover, Hfind, Hpile, Hok, Hres, drawOne_head_tail. simpl.
  intros [= <-]. unfold cardIds, sideIds. simpl.
  assert (Hdeck : id <$> deck g
                  = (id <$> option_list (head (deck g)))
                    ++ (id <$> tail (deck g))).
  { by destruct (deck g). }
  rewrite Hdeck. clear Hdeck Hres Hok Hfind Hover.
  rewrite fmap_cons in Hdel.
  destruct (players g) as [[hP pP] [hA pA]].
  destruct a, t; simpl in *; rewrite imap_overwrite, !fmap_app;
    rewrite ?Hins, ?Hdel; solve_Permutation.
Qed.

(** What a step that is a rejection or a committed move does to the log. *)
Lemma step_counted g g' :
  sameButMessage g g' \/ (exists a, committedBy a g g') ->
  logCounted g -> logCounted g'.
Proof.
  unfold logCounted.
  intros [(_ & _ & _ & _ & _ & _ & -> & ->)|(a & e & -> & _ & _ & _ & _ & _
                                              & -> & _)] Hc; [done|].
  rewrite length_app. simpl. lia.
Qed.

Lemma step_prefix g g' :
  sameButMessage g g' \/ (exists a, committedBy a g g') ->
  moveLog g `prefix_of` moveLog g'.
Proof.
  intros [(_ & _ & _ & _ & _ & _ & _ & ->)|(a & e & -> & _)]; [done|].
  by apply prefix_app_r.
Qed.

(** The drop handlers commit a move only for the side whose turn it is. *)
Lemma onDropToPileContainer_moved now targetSide p data g g' :
  onDropToPileContainer validate now targetSide p data g = Some g' ->
  sameButMessage g g' \/ committedBy (turn g) g g'.
Proof.
  unfold onDropToPileContainer. intros Hrun.
  destruct (gameOver g); [simplify_eq; left; apply sameButMessage_refl|].
  destruct data as [payload|];
    [|simplify_eq; left; apply sameButMessage_refl].
  case_bool_decide; [simplify_eq; left; apply sameButMessage_refl|].
  destruct (parseSide _) as [actor|];
    [|simplify_eq; left; apply sameButMessage_refl].
  case_bool_decide as Hturn; [simplify_eq; left; apply sameButMessage_refl|].
  assert (actor = turn g) as -> by (by destruct (decide (actor = turn g))).
  destruct (list_find _ _) as [[i card]|];
    [|simplify_eq; left; apply sameButMessage_refl].
  destruct (negb _); [simplify_eq; left; apply withMessage_same|].
  by eapply placeCard_moved.
Qed.

Lemma onDropToPileCard_moved now targetSide p tvi data g g' :
  onDropToPileCard validate now targetSide p tvi data g = Some g' ->
  sameButMessage g g' \/ committedBy (turn g) g g'.
Proof.
  unfold onDropToPileCard. intros Hrun.
  destruct (gameOver g); [simplify_eq; left; apply sameButMessage_refl|].
  destruct data as [payload|];
    [|simplify_eq; left; apply sameButMessage_refl].
  case_bool_decide; [simplify_eq; left; apply sameButMessage_refl|].
  destruct (parseSide _) as [actor|];
    [|simplify_eq; left; apply sameButMessage_refl].
  case_bool_decide as Hturn; [simplify_eq; left; apply sameButMessage_refl|].
  assert (actor = turn g) as -> by (by destruct (decide (actor = turn g))).
  destruct (list_find _ _) as [[i card]|];
    [|simplify_eq; left; apply sameButMessage_refl].
  destruct (negb _); [simplify_eq; left; apply sameButMessage_refl|].
  by eapply placeCard_moved.
Qed.

(** The shape of the candidates of one card. *)
Lemma ownPileMoves_shape g card i ms m :
  ownPileMoves canPlace g card i = Some ms -> m ∈ ms ->
  exists pile,
    piles (ofAi (players g)) !! i = Some pile /\
    canPlace card (cards pile) ai ai = true /\
    moveActor m = ai /\ moveTarget m = ai /\ moveCardId m = id card /\
    movePileIndex m = i /\
    ((isFaceCard card = true /\ cards pile <> [] /\
      tvi m = Some (Z.of_nat (length (cards pile)) - 1)) \/
     (isNumericOrAce card = true /\ tvi m = None)).
Proof.
  unfold ownPileMoves. intros Hms Hin.
  destruct (piles _ !! i) as [pile|]; [|done]. simpl in Hms. simplify_eq.
  exists pile. destruct (canPlace _ _ _ _); [|by apply elem_of_nil in Hin].
  destruct (isFaceCard card && _) eqn:Hface.
  - apply list_elem_of_singleton in Hin as ->.
    apply andb_true_iff in Hface as [Hf Hlen].
    apply bool_decide_eq_true in Hlen.
    split_and!; try done. left. split_and!; try done.
    intros Hnil. rewrite Hnil in Hlen. simpl in Hlen. lia.
  - destruct (isNumericOrAce card) eqn:Hnum;
      [|by apply elem_of_nil in Hin].
    apply list_elem_of_singleton in Hin as ->.
    split_and!; try done. by right.
Qed.

Lemma opponentPileMoves_shape g card i ms m :
  opponentPileMoves canPlace g card i = Some ms -> m ∈ ms ->
  exists pile,
    piles (ofPlayer (players g)) !! i = Some pile /\
    canPlace card (cards pile) ai player = true /\
    moveActor m = ai /\ moveTarget m = player /\ moveCardId m = id card /\
    movePileIndex m = i /\
    isFaceCard card = true /\ cards pile <> [] /\
    tvi m = Some (Z.of_nat (length (cards pile)) - 1).
Proof.
  unfold opponentPileMoves. intros Hms Hin.
  destruct (piles _ !! i) as [pile|]; [|done]. simpl in Hms. simplify_eq.
  exists pile.
  destruct (canPlace _ _ _ _ && _ && _) eqn:Hall;
    [|by apply elem_of_nil in Hin].
  apply list_elem_of_singleton in Hin as ->.
  apply andb_true_iff in Hall as [Hall Hlen].
  apply andb_true_iff in Hall as [Hcan Hf].
  apply bool_decide_eq_true in Hlen.
  split_and!; try done.
  intros Hnil. rewrite Hnil in Hlen. simpl in Hlen. lia.
Qed.

Lemma mapM_concat_elem {A B} (f : A -> option (list B)) (l : list A)
    (ks : list (list B)) (y : B) :
  mapM f l = Some ks -> y ∈ concat ks ->
  exists x ms, x ∈ l /\ f x = Some ms /\ y ∈ ms.
Proof.
  intros Hm Hin. apply mapM_Some_1 in Hm.
  apply list_elem_of_In, in_concat in Hin as (ms & Hms & Hy).
  apply list_elem_of_In, list_elem_of_lookup in Hms as [j Hj].
  destruct (Forall2_lookup_r _ _ _ _ _ Hm Hj) as (x & Hx & Hf).
  exists x, ms. split_and!; [|done|by apply list_elem_of_In].
  apply list_elem_of_lookup. by exists j.
Qed.

(** The shape of every candidate the AI enumerates: a card of its hand,
    an existing pile that the probe accepts, and for a face card the
    latest card of a non-empty pile as target. *)
Lemma aiMoves_shape g moves m :
  aiMoves canPlace g = Some moves -> m ∈ moves ->
  exists card pile,
    card ∈ hand (ofAi (players g)) /\
    piles (getSide (players g) (moveTarget m)) !! movePileIndex m
      = Some pile /\
    canPlace card (cards pile) ai (moveTarget m) = true /\
    moveActor m = ai /\ moveCardId m = id card /\
    (movePileIndex m < 3)%nat /\
    ((isFaceCard card = true /\ cards pile <> [] /\
      tvi m = Some (Z.of_nat (length (cards pile)) - 1)) \/
     (isNumericOrAce card = true /\ moveTarget m = ai /\ tvi m = None)).
Proof.
  unfold aiMoves. intros Hmoves Hin.
  destruct (mapM _ _) as [perCard|] eqn:Hper; [|done].
  simpl in Hmoves. simplify_eq.
  destruct (mapM_concat_elem _ _ _ _ Hper Hin) as (card & ms & Hc & Hms & Hm).
  unfold cardMoves in Hms.
  destruct (mapM (ownPileMoves canPlace g card) _) as [own|] eqn:Hown;
    [|done].
  destruct (mapM (opponentPileMoves canPlace g card) _) as [opp|] eqn:Hopp;
    [|done].
  simpl in Hms. simplify_eq. apply elem_of_app in Hm as [Hm|Hm].
  - destruct (mapM_concat_elem _ _ _ _ Hown Hm) as (i & ms & Hi & Hms & Hm').
    destruct (ownPileMoves_shape _ _ _ _ _ Hms Hm')
      as (pile & Hp & Hcan & Ha & Ht & Hid & Hidx & Hshape).
    exists card, pile. rewrite Ht, Hidx. split_and!; try done.
    + repeat (apply elem_of_cons in Hi as [->|Hi]; [lia|]).
      by apply elem_of_nil in Hi.
    + destruct Hshape as [?|[? ?]]; [by left|by right].
  - destruct (mapM_concat_elem _ _ _ _ Hopp Hm) as (i & ms & Hi & Hms & Hm').
    destruct (opponentPileMoves_shape _ _ _ _ _ Hms Hm')
      as (pile & Hp & Hcan & Ha & Ht & Hid & Hidx & Hshape).
    exists card, pile. rewrite Ht, Hidx. split_and!; try done.
    + repeat (apply elem_of_cons in Hi as [->|Hi]; [lia|]).
      by apply elem_of_nil in Hi.
    + by left.
Qed.

(** What the timer callback can do: nothing, skip the turn, or play a
    candidate through [placeCard]. *)
Lemma aiTimerCallback_cases localToken currentToken scheduledMoveCount rnd
    now g g' :
  aiTimerCallback validate canPlace localToken currentToken
    scheduledMoveCount rnd now g = Some g' ->
  g' = g \/
  (turn g = ai /\ gameOver g = false /\ aiMoves canPlace g = Some [] /\
   g' = withTurnMessage g player
          (Some "Opponent skipped (no valid moves).")) \/
  (turn g = ai /\ gameOver g = false /\
   exists moves m,
     aiMoves canPlace g = Some moves /\ m ∈ moves /\
     placeCard validate now (moveActor m) (moveTarget m) (moveCardId m)
       (movePileIndex m) (tvi m) g = Some g').
Proof.
  unfold aiTimerCallback. intros Hrun.
  destruct (gameOver g) eqn:Hover; simpl in Hrun; [simplify_eq; by left|].
  destruct (aiEnabled g); simpl in Hrun; [|simplify_eq; by left].
  case_bool_decide as Hturn; [simplify_eq; by left|].
  assert (turn g = ai) as Hai by (by destruct (turn g)).
  case_bool_decide; [simplify_eq; by left|].
  case_bool_decide; [simplify_eq; by left|].
  destruct (aiMoves canPlace g) as [moves|] eqn:Hmoves; [|done].
  simpl in Hrun. case_bool_decide as Hlen.
  { simplify_eq. right. left. destruct moves; [done|simpl in Hlen; lia]. }
  destruct (moves !! _) as [pick|] eqn:Hpick; [|simplify_eq; by left].
  right. right. split_and!; [done|done|]. exists moves, pick.
  split_and!; [done| |done]. apply list_elem_of_lookup. eauto.
Qed.

Lemma aiTimerCallback_moved localToken currentToken scheduledMoveCount rnd
    now g g' :
  aiTimerCallback validate canPlace localToken currentToken
    scheduledMoveCount rnd now g = Some g' ->
  sameButMessage g g' \/
  (turn g = ai /\ gameOver g = false /\ aiMoves canPlace g = Some [] /\
   g' = withTurnMessage g player
          (Some "Opponent skipped (no valid moves).")) \/
  (turn g = ai /\ committedBy ai g g').
Proof.
  intros Hrun.
  destruct (aiTimerCallback_cases _ _ _ _ _ _ _ Hrun)
    as [->|[?|(Hturn & Hover & moves & m & Hmoves & Hin & Hplace)]].
  - left. apply sameButMessage_refl.
  - by right; left.
  - destruct (aiMoves_shape _ _ _ Hmoves Hin)
      as (card & pile & _ & _ & _ & Hactor & _).
    rewrite Hactor in Hplace.
    destruct (placeCard_moved _ _ _ _ _ _ _ _ Hplace); [by left|].
    right. right. done.
Qed.

End Transitions.

(* ===================================================================== *)
(** ** The log, the turn and the self-check across transitions *)
(* ===================================================================== *)

Section Discipline.

Variable validate : Card -> list Card -> Side -> Side -> Validation.
Variable canPlace : Card -> list Card -> Side -> Side -> bool.

Implicit Types (g : GameState) (a t : Side) (card : Card).

Lemma endConditionEffect_same_log totalsOf g :
  moveCount (endConditionEffect totalsOf g) = moveCount g /\
  moveLog (endConditionEffect totalsOf g) = moveLog g /\
  turn (endConditionEffect totalsOf g) = turn g.
Proof.
  unfold endConditionEffect. destruct (gameOver g); [done|].
  by destruct (decideWinnerIfAny _ _).
Qed.

(** X6: the move count is the length of the move log, and stays so: if
    it holds of a state it holds after [placeCard], after each drop
    handler, after the AI timer callback and after the end-condition
    effect; the report of [runInvariants] then carries the move count of
    the game. *)
Theorem move_count_is_log_length g :
  logCounted g ->
  (forall now a t cardId p tvi g',
     placeCard validate now a t cardId p tvi g = Some g' -> logCounted g') /\
  (forall now targetSide p data g',
     onDropToPileContainer validate now targetSide p data g = Some g' ->
     logCounted g') /\
  (forall now targetSide p tvi data g',
     onDropToPileCard validate now targetSide p tvi data g = Some g' ->
     logCounted g') /\
  (forall localToken currentToken scheduledMoveCount rnd now g',
     aiTimerCallback validate canPlace localToken currentToken
       scheduledMoveCount rnd now g = Some g' -> logCounted g') /\
  (forall totalsOf, logCounted (endConditionEffect totalsOf g)) /\
  Invariants.reportMoveCount (Invariants.runInvariants g) = moveCount g.
Proof.
  intros Hc. split_and!.
  - intros now a t cardId p tvi g' Hrun.
    apply (step_counted g g'); [|done].
    destruct (placeCard_moved _ _ _ _ _ _ _ _ _ Hrun); eauto.
  - intros now targetSide p data g' Hrun.
    apply (step_counted g g'); [|done].
    destruct (onDropToPileContainer_moved _ _ _ _ _ _ _ Hrun); eauto.
  - intros now targetSide p tvi data g' Hrun.
    apply (step_counted g g'); [|done].
    destruct (onDropToPileCard_moved _ _ _ _ _ _ _ _ Hrun); eauto.
  - intros localToken currentToken scheduledMoveCount rnd now g' Hrun.
    destruct (aiTimerCallback_moved _ _ _ _ _ _ _ _ _ Hrun)
      as [?|[(_ & _ & _ & ->)|[_ ?]]].
    + apply (step_counted g g'); eauto.
    + exact Hc.
    + apply (step_counted g g'); eauto.
  - intros totalsOf. unfold logCounted.
    destruct (endConditionEffect_same_log totalsOf g) as (-> & -> & _).
    exact Hc.
  - by rewrite runInvariants_moveCount.
Qed.

(** X7: the move log is append-only: after [placeCard], a drop handler,
    the AI timer callback or the end-condition effect, the log of the
    prior state is a prefix of the new log, and it grows by at most one
    entry. *)
Theorem move_log_append_only g :
  let grows g' :=
    moveLog g `prefix_of` moveLog g' /\
    (length (moveLog g') <= S (length (moveLog g)))%nat in
  (forall now a t cardId p tvi g',
     placeCard validate now a t cardId p tvi g = Some g' -> grows g') /\
  (forall now targetSide p data g',
     onDropToPileContainer validate now targetSide p data g = Some g' ->
     grows g') /\
  (forall now targetSide p tvi data g',
     onDropToPileCard validate now targetSide p tvi data g = Some g' ->
     grows g') /\
  (forall localToken currentToken scheduledMoveCount rnd now g',
     aiTimerCallback validate canPlace localToken currentToken
       scheduledMoveCount rnd now g = Some g' -> grows g') /\
  (forall totalsOf, grows (endConditionEffect totalsOf g)).
Proof.
  intros grows.
  assert (Hstep : forall g',
            sameButMessage g g' \/ (exists a, committedBy a g g') -> grows g').
  { intros g' Hs. split; [by apply step_prefix|].
    destruct Hs as [(_ & _ & _ & _ & _ & _ & _ & ->)|(a & e & -> & _)];
      [lia|]. rewrite length_app. simpl. lia. }
  split_and!.
  - intros now a t cardId p tvi g' Hrun. apply Hstep.
    destruct (placeCard_moved _ _ _ _ _ _ _ _ _ Hrun); eauto.
  - intros now targetSide p data g' Hrun. apply Hstep.
    destruct (onDropToPileContainer_moved _ _ _ _ _ _ _ Hrun); eauto.
  - intros now targetSide p tvi data g' Hrun. apply Hstep.
    destruct (onDropToPileCard_moved _ _ _ _ _ _ _ _ Hrun); eauto.
  - intros localToken currentToken scheduledMoveCount rnd now g' Hrun.
    destruct (aiTimerCallback_moved _ _ _ _ _ _ _ _ _ Hrun)
      as [?|[(_ & _ & _ & ->)|[_ ?]]]; [apply Hstep; eauto| |apply Hstep; eauto].
    split; simpl; [done|lia].
  - intros totalsOf. unfold grows.
    destruct (endConditionEffect_same_log totalsOf g) as (_ & -> & _).
    split; [done|lia].
Qed.

(** The log of a committed move ends with the entry of the actor. *)
Lemma committed_last a g g' :
  committedBy a g g' ->
  exists e, last (moveLog g') = Some e /\ actor e = a /\
            turn g' = opponentOf (actor e) /\ gameOver g' = false.
Proof.
  intros (e & Hlog & Ha & _ & _ & _ & Hturn & _ & _ & Hover & _).
  exists e. rewrite Hlog, last_snoc, Ha. done.
Qed.

Lemma no_error_of_check g k :
  (exists e, e ∈ Invariants.reportErrors (Invariants.runInvariants g)
             /\ Invariants.checkOf e = k) <->
  (k = 1%nat /\ sameActorTwice (moveLog g)) \/
  (k = 2%nat /\ turnOutOfStep g) \/
  (k = 3%nat /\ recordedJackOnEmpty (moveLog g)) \/
  (k = 4%nat /\ numericOnOpponent (moveLog g)).
Proof.
  destruct (runInvariants_report g) as (_ & H1 & H2 & H3 & H4 & H5).
  split.
  - intros (e & Hin & Hk).
    destruct e; simpl in Hk; subst k.
    + left. split; [done|]. apply H1. eexists. split; [exact Hin|done].
    + right. left. split; [done|]. apply H2. eexists. split; [exact Hin|done].
    + right. right. left. split; [done|]. apply H3.
      eexists. split; [exact Hin|done].
    + right. right. right. split; [done|]. apply H4.
      eexists. split; [exact Hin|done].
    + destruct H5. eexists. split; [exact Hin|done].
  - intros [[-> H]|[[-> H]|[[-> H]|[-> H]]]];
      [by apply H1|by apply H2|by apply H3|by apply H4].
Qed.

(** X8: right after any committed move the turn check of [runInvariants]
    passes: [placeCard] leaves [turn] at the opponent of the actor it has
    just logged, also for a move made out of turn. *)
Theorem committed_move_passes_turn_check now a t cardId p tvi g g' :
  placeCard validate now a t cardId p tvi g = Some g' ->
  moveCount g' <> moveCount g ->
  ~ exists e, e ∈ Invariants.reportErrors (Invariants.runInvariants g')
              /\ Invariants.checkOf e = 2%nat.
Proof.
  intros Hrun Hcount Herr.
  destruct (placeCard_moved _ _ _ _ _ _ _ _ _ Hrun) as [Hsame|Hmoved].
  { destruct Hcount. apply Hsame. }
  apply no_error_of_check in Herr
    as [[? _]|[[_ Hout]|[[? _]|[? _]]]]; try done.
  destruct (committed_last _ _ _ Hmoved) as (e & Hlast & _ & Hturn & _).
  destruct Hout as (_ & e' & Hlast' & Hne). congruence.
Qed.

(** X9: [runInvariants] catches what [placeCard] lets through: when two
    calls in a row commit a move of the same actor, the report on the
    resulting state holds a turn-alternation error. *)
Theorem same_actor_twice_is_reported now1 now2 a t1 t2 id1 id2 p1 p2 tvi1
    tvi2 g g1 g2 :
  placeCard validate now1 a t1 id1 p1 tvi1 g = Some g1 ->
  moveCount g1 <> moveCount g ->
  placeCard validate now2 a t2 id2 p2 tvi2 g1 = Some g2 ->
  moveCount g2 <> moveCount g1 ->
  exists e, e ∈ Invariants.reportErrors (Invariants.runInvariants g2)
            /\ Invariants.checkOf e = 1%nat.
Proof.
  intros Hrun1 Hc1 Hrun2 Hc2.
  destruct (placeCard_moved _ _ _ _ _ _ _ _ _ Hrun1) as [Hsame|Hm1].
  { destruct Hc1. apply Hsame. }
  destruct (placeCard_moved _ _ _ _ _ _ _ _ _ Hrun2) as [Hsame|Hm2].
  { destruct Hc2. apply Hsame. }
  apply no_error_of_check. left. split; [done|].
  destruct Hm1 as (e1 & Hlog1 & Ha1 & _).
  destruct Hm2 as (e2 & Hlog2 & Ha2 & _).
  exists (length (moveLog g)), e1, e2. rewrite Hlog2, Hlog1.
  split_and!; [| |congruence].
  - rewrite <- app_assoc. by apply list_lookup_middle.
  - apply list_lookup_middle. rewrite length_app. simpl. lia.
Qed.

(** X10: a skipped AI turn trips the self-check: when the AI timer
    callback finds no candidate after a move of the human, the state it
    leaves has [turn] at the human although the last logged actor is the
    human, and [runInvariants] reports a turn mismatch on it. *)
Theorem ai_skip_trips_turn_check localToken scheduledMoveCount rnd now g e :
  aiEnabled g = true ->
  gameOver g = false ->
  turn g = ai ->
  moveCount g = scheduledMoveCount ->
  aiMoves canPlace g = Some [] ->
  last (moveLog g) = Some e ->
  actor e = player ->
  exists g' err,
    aiTimerCallback validate canPlace localToken localToken
      scheduledMoveCount rnd now g = Some g' /\
    turn g' = player /\
    err ∈ Invariants.reportErrors (Invariants.runInvariants g') /\
    Invariants.checkOf err = 2%nat.
Proof.
  intros Hen Hover Hturn Hcount Hmoves Hlast Hactor.
  assert (Hrun : aiTimerCallback validate canPlace localToken localToken
                   scheduledMoveCount rnd now g
                 = Some (withTurnMessage g player
                           (Some "Opponent skipped (no valid moves)."))).
  { unfold aiTimerCallback. rewrite Hen, Hover, Hturn, Hcount, Hmoves. simpl.
    by rewrite !bool_decide_eq_false_2 by (by intros ?). }
  assert (Herr : exists err,
            err ∈ Invariants.reportErrors
                    (Invariants.runInvariants
                       (withTurnMessage g player
                          (Some "Opponent skipped (no valid moves).")))
            /\ Invariants.checkOf err = 2%nat).
  { apply no_error_of_check. right. left. split; [done|].
    split; [done|]. exists e. simpl. split; [done|]. by rewrite Hactor. }
  destruct Herr as (err & Hin & Hk).
  eexists _, err. split_and!; [exact Hrun|done|exact Hin|exact Hk].
Qed.




End Discipline.

(* ===================================================================== *)
(** ** Frame of a move, the probes and the AI candidates *)
(* ===================================================================== *)

Section Probes.

Variable validate : Card -> list Card -> Side -> Side -> Validation.
Variable canPlace : Card -> list Card -> Side -> Side -> bool.

Implicit Types (g : GameState) (a t : Side) (card : Card).

(** A call changes at most the hand of the actor and one pile. *)
Lemma placeCard_frame now a t cardId p tvi g g' :
  placeCard validate now a t cardId p tvi g = Some g' ->
  (forall s, s <> a ->
     hand (getSide (players g') s) = hand (getSide (players g) s)) /\
  (forall s j, s <> t \/ j <> p ->
     piles (getSide (players g') s) !! j
     = piles (getSide (players g) s) !! j).
Proof.
  intros Hrun.
  destruct (placeCard_cases _ _ _ _ _ _ _ _ _ Hrun)
    as [Hsame|(i & card & pile & newRaw & Hover & Hfind & Hpile & Hok
               & Hres)].
  { destruct Hsame as (_ & -> & _). done. }
  revert Hrun. unfold placeCard.
  rewrite Hover, Hfind, Hpile, Hok, Hres, drawOne_head_tail. simpl.
  intros [= <-]. split.
  - intros s Hs. destruct s, a, t; simpl; congruence.
  - intros s j Hsj.
    destruct s, a, t; simpl; rewrite ?imap_overwrite; try done;
      (destruct Hsj as [?|Hj]; [done|]);
      by rewrite list_lookup_insert_ne.
Qed.

(** X11: a [placeCard] call touches one hand and one pile: the hand of
    every side but the actor and every pile but the target pile are as
    before, the deck is as before or has lost its front card, and the hand
    of the actor never grows (one card is played, at most one is drawn). *)
Theorem placeCard_touches_one_hand_one_pile now a t cardId p tvi g g' :
  placeCard validate now a t cardId p tvi g = Some g' ->
  (forall s, s <> a ->
     hand (getSide (players g') s) = hand (getSide (players g) s)) /\
  (forall s j, s <> t \/ j <> p ->
     piles (getSide (players g') s) !! j
     = piles (getSide (players g) s) !! j) /\
  (deck g' = deck g \/ deck g' = tail (deck g)) /\
  (length (hand (getSide (players g') a))
   <= length (hand (getSide (players g) a)))%nat.
Proof.
  intros Hrun. destruct (placeCard_frame _ _ _ _ _ _ _ _ Hrun) as [Hh Hp].
  split; [done|]. split; [done|].
  destruct (placeCard_cases _ _ _ _ _ _ _ _ _ Hrun)
    as [Hsame|(i & card & pile & newRaw & Hover & Hfind & Hpile & Hok
               & Hres)].
  { destruct Hsame as (-> & -> & _). split; [by left|done]. }
  destruct (placeCard_accepted validate now a t cardId p tvi g i card pile
              newRaw Hover Hfind Hpile Hok Hres)
    as (g'' & Hrun' & Hhand & _ & _ & Hdeck & _).
  assert (g'' = g') as -> by congruence.
  split; [by right|].
  apply list_find_Some in Hfind as (Hi & _ & _).
  rewrite Hhand, length_app, length_delete by eauto.
  pose proof (lookup_lt_Some _ _ _ Hi).
  destruct (deck g); simpl; lia.
Qed.




(** X13: frame of the AI timer callback: whatever it does, the hand of
    the human is untouched and the move count grows by at most one; and
    afterwards either the turn is the human's or every field but
    [message] is as before. *)
Theorem ai_callback_frame localToken currentToken scheduledMoveCount rnd
    now g g' :
  aiTimerCallback validate canPlace localToken currentToken
    scheduledMoveCount rnd now g = Some g' ->
  hand (ofPlayer (players g')) = hand (ofPlayer (players g)) /\
  moveCount g <= moveCount g' <= moveCount g + 1 /\
  (turn g' = player \/ sameButMessage g g').
Proof.
  intros Hrun.
  destruct (aiTimerCallback_cases _ _ _ _ _ _ _ _ _ Hrun)
    as [->|[(_ & _ & _ & ->)|(Hturn & Hover & moves & m & Hmoves & Hin
                              & Hplace)]].
  - split_and!; [done|lia|lia|right; apply sameButMessage_refl].
  - simpl. split_and!; [done|lia|lia|by left].
  - destruct (aiMoves_shape _ _ _ _ Hmoves Hin)
      as (card & pile & _ & _ & _ & Hactor & _).
    rewrite Hactor in Hplace.
    destruct (placeCard_frame _ _ _ _ _ _ _ _ Hplace) as [Hh _].
    split; [by apply (Hh player)|].
    destruct (placeCard_moved _ _ _ _ _ _ _ _ _ Hplace)
      as [Hsame|(e & _ & _ & _ & _ & _ & Ht & Hc & _)].
    + pose proof Hsame as (_ & _ & _ & _ & _ & _ & Hc & _).
      split_and!; [lia|lia|by right].
    + split_and!; [lia|lia|by left].
Qed.



(** X17: a drag from a hand reaches [placeCard] with the owner of the
    hand as actor.  A hand that App.jsx disables (not the owner's turn, or
    game over) starts no drag, and a drop without payload changes nothing;
    an enabled hand yields a payload that the container handler passes on
    to [placeCard] for a numeric/Ace card and answers with a message for a
    face card. *)
Theorem drag_from_hand_reaches_placeCard now game owner0 targetSide p i
    card :
  list_find (fun c => id c = id card) (hand (getSide (players game) owner0))
    = Some (i, card) ->
  (handDisabled game owner0 = true ->
     onDragStart owner0 (handDisabled game owner0) card = None /\
     onDropToPileContainer validate now targetSide p None game = Some game) /\
  (handDisabled game owner0 = false ->
     onDropToPileContainer validate now targetSide p
       (onDragStart owner0 (handDisabled game owner0) card) game
     = if isNumericOrAce card
       then placeCard validate now owner0 targetSide (id card) p None game
       else Some (withMessage game
                    (Some "Picture cards (J/Q/K) must be dropped onto a specific card."))).
Proof.
  intros Hfind. split.
  - intros Hd. unfold onDragStart, onDropToPileContainer. rewrite Hd.
    split; [done|]. by destruct (gameOver game).
  - intros Hd. unfold onDragStart. rewrite Hd.
    unfold handDisabled in Hd. apply orb_false_iff in Hd as [Hturn Hover].
    apply bool_decide_eq_false in Hturn.
    assert (turn game = owner0) as Ht
      by (by destruct (decide (turn game = owner0))).
    unfold onDropToPileContainer. rewrite Hover.
    cbn [source owner payloadCardId].
    assert (parseSide (sideName owner0) = Some owner0) as ->
      by (by destruct owner0).
    rewrite (bool_decide_eq_false_2 ("hand" <> "hand")) by (by intros ?).
    rewrite (bool_decide_eq_false_2 (owner0 <> turn game))
      by (rewrite Ht; by intros ?).
    rewrite Hfind. by destruct (isNumericOrAce card).
Qed.

(** X21: a refusal of the hint is final.  When the probe is the [ok]
    field of the validator, a payload for which the container hint, or the
    card hint at a numeric target index, answers false never leads to a
    committed move: the drop handler leaves every field but [message] as
    it was. *)
Theorem probe_refusal_is_final now game targetSide p payload :
  probeAgrees validate canPlace ->
  (forall g',
     canDropOnTargetPileContainer canPlace game targetSide p (Some payload)
       = Some false ->
     onDropToPileContainer validate now targetSide p (Some payload) game
       = Some g' ->
     sameButMessage game g') /\
  (forall z g',
     canDropOnTargetPileCard canPlace game targetSide p (Some z)
       (Some payload) = Some false ->
     onDropToPileCard validate now targetSide p (Some z) (Some payload) game
       = Some g' ->
     sameButMessage game g').
Proof.
  intros Hagree. split.
  - intros g'. unfold canDropOnTargetPileContainer, onDropToPileContainer.
    destruct (gameOver game) eqn:Hover;
      [intros _ [= <-]; apply sameButMessage_refl|].
    case_bool_decide; [intros _ [= <-]; apply sameButMessage_refl|].
    destruct (parseSide _) as [actor|];
      [|intros _ [= <-]; apply sameButMessage_refl].
    case_bool_decide; [intros _ [= <-]; apply sameButMessage_refl|].
    destruct (list_find _ _) as [[i card]|] eqn:Hfind;
      [|intros _ [= <-]; apply sameButMessage_refl].
    destruct (isNumericOrAce card); simpl;
      [|intros _ [= <-]; apply withMessage_same].
    destruct (piles _ !! p) as [pile|] eqn:Hpile; [|done].
    rewrite Hagree. intros [= Hok]. unfold placeCard.
    rewrite Hover, Hfind, Hpile, Hok. simpl.
    intros [= <-]. apply withMessage_same.
  - intros z g'. unfold canDropOnTargetPileCard, onDropToPileCard.
    destruct (gameOver game) eqn:Hover;
      [intros _ [= <-]; apply sameButMessage_refl|].
    case_bool_decide; [intros _ [= <-]; apply sameButMessage_refl|].
    destruct (parseSide _) as [actor|];
      [|intros _ [= <-]; apply sameButMessage_refl].
    case_bool_decide; [intros _ [= <-]; apply sameButMessage_refl|].
    destruct (list_find _ _) as [[i card]|] eqn:Hfind;
      [|intros _ [= <-]; apply sameButMessage_refl].
    destruct (isFaceCard card) eqn:Hface; simpl;
      [|intros _ [= <-]; apply sameButMessage_refl].
    destruct (piles _ !! p) as [pile|] eqn:Hpile; [|done].
    rewrite Hagree. unfold placeCard. rewrite Hover, Hfind, Hpile.
    destruct (ok _) eqn:Hok; simpl;
      [|intros _ [= <-]; apply withMessage_same].
    rewrite isFaceCard_not_numeric in Hface. apply negb_true_iff in Hface.
    unfold resolveInsertion. rewrite Hface.
    case_bool_decide as Hk; simpl; [|done].
    destruct (match at_index (cards pile) z with
              | Some tc => isNumericOrAce tc && negb (removed tc)
              | None => false
              end); simpl; [done|].
    intros _ [= <-]. apply withMessage_same.
Qed.

End Probes.

(* ===================================================================== *)
(** ** More on the end condition and the self-check *)
(* ===================================================================== *)

Section EndMore.

Variable totalsOf : list Pile -> Totals.

(** X18: [decideWinnerIfAny] treats the two sides alike: exchanging the
    totals of the human and the AI exchanges the winner, and a tie stays a
    tie. *)
Theorem decideWinner_symmetric (playerTotals aiTotals : Totals) :
  decideWinnerIfAny aiTotals playerTotals
  = swapWinner <$> decideWinnerIfAny playerTotals aiTotals.
Proof.
  unfold decideWinnerIfAny.
  destruct (forallb isInRange (perPile playerTotals)),
           (forallb isInRange (perPile aiTotals)); simpl; try done.
  repeat case_bool_decide; simpl; try done; lia.
Qed.

(** X19: the end-condition effect is idempotent and touches only
    [gameOver] and [winner]: running it again changes nothing, every other
    field is as before, and whenever it turns [gameOver] on it also sets a
    winner. *)
Theorem endConditionEffect_idempotent (g : GameState) :
  let g' := endConditionEffect totalsOf g in
  endConditionEffect totalsOf g' = g' /\
  deck g' = deck g /\ players g' = players g /\ turn g' = turn g /\
  aiEnabled g' = aiEnabled g /\ message g' = message g /\
  moveCount g' = moveCount g /\ moveLog g' = moveLog g /\
  (gameOver g' = false -> g' = g) /\
  (gameOver g = false -> gameOver g' = true -> is_Some (winner g')).
Proof.
  unfold endConditionEffect.
  destruct (gameOver g) eqn:Hover; simpl.
  { rewrite Hover. split_and!; try done; congruence. }
  destruct (decideWinnerIfAny _ _) as [w|] eqn:Hw; simpl.
  - split_and!; try done; by eexists.
  - rewrite Hover, Hw. split_and!; try done; congruence.
Qed.

End EndMore.

Section ReportShape.

Import Invariants.

Implicit Types (log : list MoveLogEntry).

Lemma alternationLoop_one log : forall i,
  (length (errors (alternationLoop i log blank)) <= 1)%nat.
Proof.
  induction log as [|prev [|curr rest] IH]; intros i; [simpl; lia..|].
  rewrite alternationLoop_cons. case_bool_decide; [simpl; lia|].
  rewrite alternationLoop_errors. simpl. apply IH.
Qed.

Lemma jackLoop_one log : forall i,
  (length (errors (jackLoop i log blank)) <= 1)%nat.
Proof.
  induction log as [|m rest IH]; intros i; simpl; [lia|].
  destruct (_ && _); [simpl; lia|]. apply IH.
Qed.

Lemma opponentLoop_one log : forall i,
  (length (errors (opponentLoop i log blank)) <= 1)%nat.
Proof.
  induction log as [|m rest IH]; intros i; simpl; [lia|].
  case_bool_decide; [|apply IH].
  destruct (negb _); [simpl; lia|].
  rewrite opponentLoop_errors. simpl. apply IH.
Qed.

Lemma turnCheck_one g log :
  (length (errors (turnCheck g log blank)) <= 1)%nat.
Proof.
  unfold turnCheck. destruct (_ && _); [|simpl; lia].
  destruct (last log); [|simpl; lia].
  case_bool_decide; simpl; lia.
Qed.

Lemma one_of_check (l : list InvariantError) (k : nat) :
  Forall (fun e => checkOf e = k) l -> (length l <= 1)%nat ->
  checkOf <$> l = [] \/ checkOf <$> l = [k].
Proof.
  intros Hall Hlen. destruct l as [|e [|e' l]]; [by left| |simpl in Hlen; lia].
  right. apply Forall_cons in Hall as [He _]. simpl. by rewrite He.
Qed.

(** X20: the shape of a report.  [runInvariants] reports at most one
    error per check, so at most four in all;
    it reports none exactly when no two consecutive entries share the
    actor, the turn follows the last entry (or the game is over), no entry
    records a Jack with [pileBeforeSize] 0 and no entry plays a
    numeric/Ace card onto the other side; the deck check never adds an
    error. *)
Theorem report_shape g :
  let errs := reportErrors (runInvariants g) in
  NoDup (checkOf <$> errs) /\
  (length errs <= 4)%nat /\
  (forall e, e ∈ errs -> checkOf e <> 5%nat) /\
  (errs = [] <->
   ~ sameActorTwice (moveLog g) /\ ~ turnOutOfStep g /\
   ~ recordedJackOnEmpty (moveLog g) /\ ~ numericOnOpponent (moveLog g)).
Proof.
  intros errs. subst errs. rewrite runInvariants_errors.
  destruct (alternationLoop_spec (moveLog g) 1) as [H1 I1].
  destruct (turnCheck_spec g) as [H2 I2].
  destruct (jackLoop_spec (moveLog g) 0) as [H3 I3].
  destruct (opponentLoop_spec (moveLog g) 0) as [H4 I4].
  pose proof (alternationLoop_one (moveLog g) 1) as L1.
  pose proof (turnCheck_one g (moveLog g)) as L2.
  pose proof (jackLoop_one (moveLog g) 0) as L3.
  pose proof (opponentLoop_one (moveLog g) 0) as L4.
  split_and!.
  - rewrite !fmap_app.
    destruct (one_of_check _ _ H1 L1) as [-> | ->],
             (one_of_check _ _ H2 L2) as [-> | ->],
             (one_of_check _ _ H3 L3) as [-> | ->],
             (one_of_check _ _ H4 L4) as [-> | ->]; compute_done.
  - rewrite !length_app. lia.
  - intros e He Hk. rewrite !elem_of_app in He.
    rewrite Forall_forall in H1, H2, H3, H4.
    destruct He as [He|[He|[He|He]]];
      [apply H1 in He|apply H2 in He|apply H3 in He|apply H4 in He];
      congruence.
  - rewrite <- I1, <- I2, <- I3, <- I4. split.
    + intros Hnil.
      apply app_eq_nil in Hnil as [-> Hnil].
      apply app_eq_nil in Hnil as [-> Hnil].
      apply app_eq_nil in Hnil as [-> ->]. split_and!; by intros ?.
    + intros (N1 & N2 & N3 & N4).
      destruct (errors (alternationLoop 1 (moveLog g) blank));
        [|by destruct N1].
      destruct (errors (turnCheck g (moveLog g) blank)); [|by destruct N2].
      destruct (errors (jackLoop 0 (moveLog g) blank)); [|by destruct N3].
      destruct (errors (opponentLoop 0 (moveLog g) blank));
        [|by destruct N4].
      done.
Qed.

End ReportShape.

(* ===================================================================== *)
(** ** Worked instances of the further properties *)
(* ===================================================================== *)

Section MoreInstances.

Import Samples.

(** A Jack on the Ace of the pile Ace, 5. *)
Lemma insertion_keeps_pile_witness :
  exists k old,
    (k <= 2)%nat /\
    Forall2 ghosted [card "AS" RA; card "5S" R5] old /\
    [markRemoved (card "AS" RA); card "JS" RJ; card "5S" R5]
    = take k old ++ card "JS" RJ :: drop k old.
Proof.
  destruct (insertion_keeps_pile (card "JS" RJ)
              [card "AS" RA; card "5S" R5] (Some 0)
              [markRemoved (card "AS" RA); card "JS" RJ; card "5S" R5]
              eq_refl)
    as (k & old & Hk & Hg & Hnew & _).
  by exists k, old.
Defined.

(** A Jack aimed at position 5 of a pile of one card. *)
Lemma face_card_with_stray_target_witness :
  resolveInsertion (card "JS" RJ) [card "AS" RA] (Some 5)
  = inr (spliceInsert [card "AS" RA] (5 + 1) (card "JS" RJ)) /\
  spliceInsert [card "AS" RA] (5 + 1) (card "JS" RJ)
  = [card "AS" RA] ++ [card "JS" RJ].
Proof.
  destruct (face_card_with_stray_target (card "JS" RJ) [card "AS" RA] 5)
    as (Hres & Hend & _).
  - reflexivity.
  - discriminate.
  - right. simpl. lia.
  - split; [exact Hres|]. apply Hend. simpl. lia.
Defined.

(** The King of the AI on the Ace of the human. *)
Lemma king_commit_needs_live_target_witness :
  exists (n : nat) tc,
    Some 0 = Some (Z.of_nat n) /\
    [card "AS" RA] !! n = Some tc /\
    isNumericOrAce tc = true /\ removed tc = false.
Proof.
  edestruct (king_commit_needs_live_target canPlaceCardOnTargetWithReason
               0 ai player "KS" 0 (Some 0) queenInHand)
    as (n & tc & Htvi & Hat & Hn & Hr & _).
  - reflexivity.
  - simpl. lia.
  - reflexivity.
  - reflexivity.
  - reflexivity.
  - by exists n, tc.
Defined.

(** Playing the Ace of the scenario keeps the ids of the game. *)
Lemma placeCard_conserves_cards_witness :
  exists g', play "AS" None scenarioStart = Some g' /\
             cardIds g' ≡ₚ cardIds scenarioStart.
Proof.
  eexists. split; [reflexivity|].
  apply (placeCard_conserves_cards canPlaceCardOnTargetWithReason
           0 player player "AS" 0 None scenarioStart).
  reflexivity.
Defined.

(** One move logged, move count 1. *)
Lemma move_count_is_log_length_witness :
  logCounted queenInHand /\
  Invariants.reportMoveCount (Invariants.runInvariants queenInHand)
  = moveCount queenInHand.
Proof.
  split; [reflexivity|].
  destruct (move_count_is_log_length canPlaceCardOnTargetWithReason
              canPlaceCardOnTarget queenInHand eq_refl)
    as (_ & _ & _ & _ & _ & H).
  exact H.
Defined.

(** After the Ace of the scenario the turn check passes. *)
Lemma committed_move_passes_turn_check_witness :
  exists g', play "AS" None scenarioStart = Some g' /\
    ~ exists e, e ∈ Invariants.reportErrors (Invariants.runInvariants g')
                /\ Invariants.checkOf e = 2%nat.
Proof.
  eexists. split; [reflexivity|].
  apply (committed_move_passes_turn_check canPlaceCardOnTargetWithReason
           0 player player "AS" 0 None scenarioStart); [reflexivity|].
  simpl. lia.
Defined.

(** The human plays the Ace and then the 5 without waiting for the AI. *)
Lemma same_actor_twice_is_reported_witness :
  exists g2 e,
    play "AS" None scenarioStart ≫= play "5S" None = Some g2 /\
    e ∈ Invariants.reportErrors (Invariants.runInvariants g2) /\
    Invariants.checkOf e = 1%nat.
Proof.
  edestruct (same_actor_twice_is_reported canPlaceCardOnTargetWithReason
               0 0 player player player "AS" "5S" 0 0 None None
               scenarioStart) as (e & Hin & Hk).
  - reflexivity.
  - simpl. lia.
  - reflexivity.
  - simpl. lia.
  - eexists _, e. split; [reflexivity|]. split; [exact Hin|exact Hk].
Defined.

(** The AI has no card left after the Ace of the human. *)
Lemma ai_skip_trips_turn_check_witness :
  exists g' err,
    aiTimerCallback canPlaceCardOnTargetWithReason canPlaceCardOnTarget
      7 7 1 0 0 aiOutOfCards = Some g' /\
    turn g' = player /\
    err ∈ Invariants.reportErrors (Invariants.runInvariants g') /\
    Invariants.checkOf err = 2%nat.
Proof.
  apply (ai_skip_trips_turn_check canPlaceCardOnTargetWithReason
           canPlaceCardOnTarget 7 1 0%nat 0 aiOutOfCards aceFirst);
    reflexivity.
Defined.


(** The Ace of the human leaves the hand of the AI alone. *)
Lemma placeCard_touches_one_hand_one_pile_witness :
  exists g', play "AS" None scenarioStart = Some g' /\
    hand (ofAi (players g')) = hand (ofAi (players scenarioStart)).
Proof.
  eexists. split; [reflexivity|].
  edestruct (placeCard_touches_one_hand_one_pile
               canPlaceCardOnTargetWithReason 0 player player "AS" 0 None
               scenarioStart) as (Hh & _).
  - reflexivity.
  - apply (Hh ai). discriminate.
Defined.

Lemma rules_probe_agrees :
  probeAgrees canPlaceCardOnTargetWithReason canPlaceCardOnTarget.
Proof. intros card pileCards a t. reflexivity. Defined.


(** The callback of the stuck AI leaves the hand of the human alone. *)
Lemma ai_callback_frame_witness :
  exists g',
    aiTimerCallback canPlaceCardOnTargetWithReason canPlaceCardOnTarget
      3 3 0 0 0 aiStuck = Some g' /\
    hand (ofPlayer (players g')) = hand (ofPlayer (players aiStuck)) /\
    turn g' = player.
Proof.
  eexists. split; [reflexivity|].
  edestruct (ai_callback_frame canPlaceCardOnTargetWithReason
               canPlaceCardOnTarget 3 3 0 0%nat 0 aiStuck) as (Hh & _).
  - reflexivity.
  - split; [exact Hh|reflexivity].
Defined.



(** The Ace dragged from the hand of the human on its turn. *)
Lemma drag_from_hand_reaches_placeCard_witness :
  handDisabled scenarioStart player = false /\
  onDropToPileContainer canPlaceCardOnTargetWithReason 0 player 0
    (onDragStart player (handDisabled scenarioStart player) (card "AS" RA))
    scenarioStart
  = play "AS" None scenarioStart.
Proof.
  split; [reflexivity|].
  destruct (drag_from_hand_reaches_placeCard canPlaceCardOnTargetWithReason
              0 scenarioStart player player 0%nat 0%nat (card "AS" RA)
              eq_refl) as [_ Hrun].
  exact (Hrun eq_refl).
Defined.

(** The hint refuses the 3 of the scenario once the pile ascends to 5. *)
Lemma probe_refusal_is_final_witness :
  exists g2 g3,
    play "AS" None scenarioStart ≫= play "5S" None = Some g2 /\
    onDropToPileContainer canPlaceCardOnTargetWithReason 0 player 0
      (Some (dragOf "3S")) (withTurn g2 player) = Some g3 /\
    sameButMessage (withTurn g2 player) g3.
Proof.
  eexists _, _. split; [reflexivity|]. split; [reflexivity|].
  eapply (proj1 (probe_refusal_is_final canPlaceCardOnTargetWithReason
                   canPlaceCardOnTarget 0 _ player 0%nat (dragOf "3S")
                   rules_probe_agrees)); reflexivity.
Defined.

End MoreInstances.
